(** * ECommerceDemo.cpp: cart, checkout and shipping, verified

    A shallow embedding of the checkout core of [ECommerceDemo.cpp]:
    the product class hierarchy, [Customer], [Cart], [ShippingService::ship]
    and [checkout].

    - [int] is a 32-bit two's-complement integer, kept as a [Z] with the
      wrap-around of [+=] and [-=] written out ([Int.wrap]).
    - [double] is IEEE 754 binary64, taken from the Standard Library's
      executable specification [SpecFloat] (round to nearest, ties to even).
    - [Product*] is an address; the objects live in a heap [gmap ptr Product].
    - [std::map<Product*, int>] is a list of pairs kept in ascending key
      order, which is the order a [std::map] is iterated in.
    - the wall clock read by [isExpired] is an explicit argument [now].
    - what [checkout] writes is kept as data ([Outcome]); [Print] turns it
      into the lines of text.
    - a result [None] stands for a run that C++ gives no meaning to (a read
      through a pointer to no product) or that ends in an exception nobody
      catches ([nameToCount.at]). *)

From Stdlib Require Import ZArith QArith Lia.
From Stdlib Require Import Floats.SpecFloat.
From stdpp Require Import gmap strings list fin_maps sorting pretty.

Local Open Scope Z_scope.

(** ** Machine integers *)

Module Int.
Definition INT_MIN : Z := -2147483648.
Definition INT_MAX : Z := 2147483647.

Definition in_range (z : Z) : Prop := INT_MIN <= z <= INT_MAX.

(** The representative of [z] modulo 2^32 in [INT_MIN .. INT_MAX]. *)
Definition wrap (z : Z) : Z := (z + 2 ^ 31) mod 2 ^ 32 - 2 ^ 31.

(** [a += b] and [a -= b] on [int]. *)
Definition add (a b : Z) : Z := wrap (a + b).
Definition sub (a b : Z) : Z := wrap (a - b).
End Int.

(** ** Binary64 numbers *)

Module Double.
Definition double : Type := spec_float.

Definition prec : Z := 53.
Definition emax : Z := 1024.

Definition add : double -> double -> double := SFadd prec emax.
Definition sub : double -> double -> double := SFsub prec emax.
Definition mul : double -> double -> double := SFmul prec emax.
Definition div : double -> double -> double := SFdiv prec emax.

(** [x < y]; false as soon as one side is a NaN. *)
Definition ltb : double -> double -> bool := SFltb.

(** The literal [0.0]. *)
Definition zero : double := S754_zero false.

(** Conversion of an integer to [double] (exact for every [int]). *)
Definition of_Z (z : Z) : double := binary_normalize prec emax z 0 false.

(** The decimal literal [m * 10^-k], correctly rounded: [lit 4 1] is [0.4]. *)
Definition lit (m : Z) (k : nat) : double := div (of_Z m) (of_Z (10 ^ Z.of_nat k)).

(** [std::ceil]: the least integral value not below [x]. *)
Definition ceil (x : double) : double :=
  match x with
  | S754_finite s m e =>
      if 0 <=? e then x
      else
        let d := 2 ^ (- e) in
        let q := Z.pos m / d in
        if s then (if q =? 0 then S754_zero true else of_Z (- q))
        else of_Z (if Z.pos m mod d =? 0 then q else q + 1)
  | _ => x
  end.

(** The integral part of [x], fraction discarded; nothing for NaN and
    the infinities. *)
Definition trunc (x : double) : option Z :=
  match x with
  | S754_zero _ => Some 0
  | S754_finite s m e =>
      Some (cond_Zopp s (if 0 <=? e then Z.pos m * 2 ^ e else Z.pos m / 2 ^ (- e)))
  | _ => None
  end.

(** [static_cast<int>(x)]: the truncated value when [int] can hold it.
    C++ leaves the other conversions undefined: [None]. *)
Definition to_int (x : double) : option Z :=
  match trunc x with
  | Some z => if (Int.INT_MIN <=? z) && (z <=? Int.INT_MAX) then Some z else None
  | None => None
  end.

(** What [std::fixed << std::setprecision(places) << x] writes: for a
    finite [x] the decimal numeral [scaled / 10^places] with exactly
    [places] digits after the point, preceded by [-] when [neg]. *)
Inductive fixed_text : Type :=
| FixedDigits (neg : bool) (scaled : Z) (places : nat)
| FixedInf (neg : bool)
| FixedNan.

(** [num / den] rounded to the nearest integer, ties to the even one
    (the conversion of [printf("%.*f")] in the default rounding mode). *)
Definition round_half_even (num den : Z) : Z :=
  let q := num / den in
  let r := num mod den in
  match 2 * r ?= den with
  | Lt => q
  | Gt => q + 1
  | Eq => if Z.even q then q else q + 1
  end.

Definition fixed (places : nat) (x : double) : fixed_text :=
  match x with
  | S754_zero s => FixedDigits s 0 places
  | S754_finite s m e =>
      let n := Z.pos m * 10 ^ Z.of_nat places in
      FixedDigits s
        (if 0 <=? e then n * 2 ^ e else round_half_even n (2 ^ (- e)))
        places
  | S754_infinity s => FixedInf s
  | S754_nan => FixedNan
  end.

(** The same quotient with the fraction cut off instead: what a display
    "truncated to [places] digits" would show. *)
Definition fixed_truncated (places : nat) (x : double) : fixed_text :=
  match x with
  | S754_zero s => FixedDigits s 0 places
  | S754_finite s m e =>
      let n := Z.pos m * 10 ^ Z.of_nat places in
      FixedDigits s (if 0 <=? e then n * 2 ^ e else n / 2 ^ (- e)) places
  | S754_infinity s => FixedInf s
  | S754_nan => FixedNan
  end.

(** The rational number a finite [double] stands for (0 for the others). *)
Definition value (x : double) : Q :=
  match x with
  | S754_finite s m e =>
      if 0 <=? e then inject_Z (cond_Zopp s (Z.pos m * 2 ^ e))
      else Qmake (cond_Zopp s (Z.pos m)) (Z.to_pos (2 ^ (- e)))
  | _ => 0%Q
  end.

(** Its absolute value. *)
Definition magnitude (x : double) : Q :=
  match x with
  | S754_finite _ m e =>
      if 0 <=? e then inject_Z (Z.pos m * 2 ^ e)
      else Qmake (Z.pos m) (Z.to_pos (2 ^ (- e)))
  | _ => 0%Q
  end.

Definition is_finite (x : double) : bool :=
  match x with
  | S754_zero _ | S754_finite _ _ _ => true
  | _ => false
  end.

(** [x] is a binary64 datum: at most 53 significant bits, exponent in
    range. *)
Definition valid (x : double) : bool := valid_binary prec emax x.

(** [z] is [x] with its fraction cut off: the integer next to [x] on the
    side of zero. *)
Definition truncation_of (x : double) (z : Z) : Prop :=
  ((0 <= value x -> inject_Z z <= value x /\ value x < inject_Z (z + 1)) /\
   (value x <= 0 -> inject_Z (z - 1) < value x /\ value x <= inject_Z z))%Q.

(** [c] is the least integer not below [x]. *)
Definition ceiling_of (x : double) (c : Z) : Prop :=
  (inject_Z (c - 1) < value x /\ value x <= inject_Z c)%Q.

(** The numeral [n / 10^places] is within half a unit of its last place
    of the absolute value of [x]. *)
Definition nearest_numeral (places : nat) (x : double) (n : Z) : Prop :=
  (inject_Z n - (1 # 2) <= magnitude x * inject_Z (10 ^ Z.of_nat places) /\
   magnitude x * inject_Z (10 ^ Z.of_nat places) <= inject_Z n + (1 # 2))%Q.
End Double.

Export Double(double).

(** ** Products *)

(** A [time_t]: seconds since the epoch, as [std::mktime] returns them. *)
Definition time_t : Type := Z.

(** The value of a [Product*] (and of the [ShippableProduct*] obtained from
    it by [dynamic_cast]): the address of the object. [std::map] orders its
    keys by this address. *)
Definition ptr : Type := N.

(** The data members of [class Product]. *)
Record ProductData : Type := mkProductData {
  name : string;
  price : double;
  quantity : Z
}.

(** The four concrete classes. [expiryDate] holds the [std::tm] member
    through the instant [std::mktime] computes for it. *)
Inductive Product : Type :=
| SimpleProduct (base : ProductData)
| ExpirableProduct (base : ProductData) (expiryDate : time_t)
| ShippableItem (base : ProductData) (weight : double)
| ExpirableShippableItem (base : ProductData) (expiryDate : time_t) (weight : double).

Definition base_of (p : Product) : ProductData :=
  match p with
  | SimpleProduct b | ExpirableProduct b _
  | ShippableItem b _ | ExpirableShippableItem b _ _ => b
  end.

Definition getName (p : Product) : string := name (base_of p).
Definition getPrice (p : Product) : double := price (base_of p).
Definition getQuantity (p : Product) : Z := quantity (base_of p).

(** [void reduceQuantity(int amount) { quantity -= amount; }] *)
Definition reduceQuantity (amount : Z) (p : Product) : Product :=
  let b := base_of p in
  let b' := mkProductData (name b) (price b) (Int.sub (quantity b) amount) in
  match p with
  | SimpleProduct _ => SimpleProduct b'
  | ExpirableProduct _ d => ExpirableProduct b' d
  | ShippableItem _ w => ShippableItem b' w
  | ExpirableShippableItem _ d w => ExpirableShippableItem b' d w
  end.

(** [Product::isExpired] returns false; [ExpirableProduct::isExpired]
    compares [mktime(&expiryDate)] with the current time. *)
Definition isExpired (now : time_t) (p : Product) : bool :=
  match p with
  | ExpirableProduct _ d | ExpirableShippableItem _ d _ => d <? now
  | SimpleProduct _ | ShippableItem _ _ => false
  end.

(** [dynamic_cast<const ShippableProduct*>(this) != nullptr] *)
Definition isShippable (p : Product) : bool :=
  match p with
  | ShippableItem _ _ | ExpirableShippableItem _ _ _ => true
  | SimpleProduct _ | ExpirableProduct _ _ => false
  end.

(** [ShippableProduct::getWeight]; there is no such member to call on an
    object that is not a [ShippableProduct]. *)
Definition getWeight (p : Product) : option double :=
  match p with
  | ShippableItem _ w | ExpirableShippableItem _ _ w => Some w
  | SimpleProduct _ | ExpirableProduct _ _ => None
  end.

(** The objects products point to. Reading through an address that holds
    no product has no defined behaviour: the functions below return [None]
    there. *)
Abbreviation Heap := (gmap ptr Product).

(** ** Customer *)

Record Customer : Type := mkCustomer {
  customer_name : string;
  balance : double
}.

Definition getBalance (c : Customer) : double := balance c.

(** [void deductBalance(double amount) { balance -= amount; }] *)
Definition deductBalance (amount : double) (c : Customer) : Customer :=
  mkCustomer (customer_name c) (Double.sub (balance c) amount).

(** ** Cart *)

Module Cart.
(** [std::map<Product*, int> items], as the sequence of its entries in
    iteration order. *)
Definition t : Type := list (ptr * Z).

Definition empty : t := [].

(** [items[k] op= ...]: [operator[]] finds the entry of [k], or inserts
    one holding [0] at its place in the key order, and [f] updates it. *)
Fixpoint update (f : Z -> Z) (k : ptr) (items : t) : t :=
  match items with
  | [] => [(k, f 0)]
  | (k', v) :: rest =>
      if (k <? k')%N then (k, f 0) :: items
      else if (k =? k')%N then (k', f v) :: rest
      else (k', v) :: update f k rest
  end.

Fixpoint lookup (k : ptr) (items : t) : option Z :=
  match items with
  | [] => None
  | (k', v) :: rest => if (k =? k')%N then Some v else lookup k rest
  end.

(** The [std::runtime_error]s thrown by [add], with their [what()]. *)
Inductive AddError : Type :=
| InvalidQuantity                   (* "Quantity must be positive" *)
| ExpiredProduct (name : string)    (* name + " is expired" *)
| InsufficientStock (name : string) (* "Not enough stock for " + name *).

Definition what (e : AddError) : string :=
  match e with
  | InvalidQuantity => "Quantity must be positive"
  | ExpiredProduct n => n +:+ " is expired"
  | InsufficientStock n => "Not enough stock for " +:+ n
  end.

Inductive AddResult : Type :=
| Added
| Thrown (e : AddError).

(** [void add(Product* product, int quantity)] (lines 91-96): how the call
    ends and the cart it leaves. The quantity test precedes the first use of
    [product]. *)
Definition add (now : time_t) (h : Heap) (product : ptr) (quantity : Z)
    (items : t) : option (AddResult * t) :=
  if quantity <=? 0 then Some (Thrown InvalidQuantity, items)
  else
    p ← h !! product;
    if isExpired now p then Some (Thrown (ExpiredProduct (getName p)), items)
    else if getQuantity p <? quantity
    then Some (Thrown (InsufficientStock (getName p)), items)
    else Some (Added, update (fun v => Int.add v quantity) product items).

Definition getItems (items : t) : list (ptr * Z) := items.

Definition isEmpty (items : t) : bool :=
  match items with [] => true | _ :: _ => false end.

Definition clear (items : t) : t := [].

(** A series of [add] calls on one cart, each exception caught by the
    caller: how each call ended, and the cart after the last one. *)
Fixpoint add_all (now : time_t) (h : Heap) (calls : list (ptr * Z))
    (items : t) : option (list AddResult * t) :=
  match calls with
  | [] => Some ([], items)
  | (product, quantity) :: rest =>
      '(r, items') ← add now h product quantity items;
      '(rs, items'') ← add_all now h rest items';
      Some (r :: rs, items'')
  end.
End Cart.

(** ** Shipping service *)

(** The shipment notice: the [count "x " name] lines, the per-unit weight
    lines (followed by [g]) and the total (followed by [kg]). *)
Record Shipment : Type := mkShipment {
  counts : list (Z * string);
  unit_grams : list Double.fixed_text;
  total_kg : Double.fixed_text
}.

Module ShippingService.
(** First loop of [ship]: one line per name, at the first unit that
    carries it; [printed] is the [std::set] of names already written.
    [nameToCount.at] throws when the name is missing: no normal return. *)
Fixpoint count_lines (h : Heap) (items : list ptr)
    (nameToCount : gmap string Z) (printed : gset string)
    : option (list (Z * string)) :=
  match items with
  | [] => Some []
  | item :: rest =>
      p ← h !! item;
      if decide (getName p ∈ printed) then count_lines h rest nameToCount printed
      else
        count ← nameToCount !! getName p;
        ls ← count_lines h rest nameToCount ({[getName p]} ∪ printed);
        Some ((count, getName p) :: ls)
  end.

(** Second loop of [ship]: one weight line per unit, in grams with no
    decimals, while [totalWeight] accumulates. *)
Fixpoint weight_lines (h : Heap) (items : list ptr) (totalWeight : double)
    : option (list Double.fixed_text * double) :=
  match items with
  | [] => Some ([], totalWeight)
  | item :: rest =>
      p ← h !! item;
      w ← getWeight p;
      '(ls, total) ← weight_lines h rest (Double.add totalWeight w);
      Some (Double.fixed 0 (Double.mul w (Double.of_Z 1000)) :: ls, total)
  end.

(** [static void ship(items, nameToCount)] (lines 105-122): the notice
    written, if any. *)
Definition ship (h : Heap) (items : list ptr) (nameToCount : gmap string Z)
    : option (option Shipment) :=
  match items with
  | [] => Some None
  | _ :: _ =>
      cs ← count_lines h items nameToCount ∅;
      '(ws, totalWeight) ← weight_lines h items Double.zero;
      Some (Some (mkShipment cs ws (Double.fixed 1 totalWeight)))
  end.
End ShippingService.

(** ** Checkout *)

(** The objects a call [checkout(customer, cart)] can reach. *)
Record World : Type := mkWorld {
  products : Heap;
  customer : Customer;
  cart : Cart.t
}.

(** The four ways [checkout] gives up, each a line on the output followed
    by [return]. *)
Inductive CheckoutError : Type :=
| EmptyCart                          (* "Error: Cart is empty" *)
| ExpiredProduct (name : string)     (* "Error: " name " is expired" *)
| InsufficientStock (name : string)  (* "Error: Not enough stock for " name *)
| InsufficientBalance                (* "Error: Insufficient balance" *).

(** The line written for each of them. *)
Definition message (e : CheckoutError) : string :=
  match e with
  | EmptyCart => "Error: Cart is empty"
  | ExpiredProduct n => "Error: " +:+ n +:+ " is expired"
  | InsufficientStock n => "Error: Not enough stock for " +:+ n
  | InsufficientBalance => "Error: Insufficient balance"
  end.

(** The receipt: its item lines [qty "x " name amount], then the four
    amounts, each the [static_cast<int>] of a [double]. *)
Record Receipt : Type := mkReceipt {
  item_lines : list (Z * string * option Z);
  reported_subtotal : option Z;
  reported_shipping : option Z;
  reported_amount : option Z;
  reported_balance : option Z
}.

Inductive Outcome : Type :=
| Failed (e : CheckoutError)
| Completed (notice : option Shipment) (receipt : Receipt).

(** The text on [std::cout], line by line. *)
Module Print.
Fixpoint pad (c : string) (n : nat) : string :=
  match n with
  | O => ""
  | S n' => c +:+ pad c n'
  end.

(** [std::left << std::setw(width) << s] *)
Definition left (width : nat) (s : string) : string :=
  s +:+ pad " " (width - String.length s).

Definition int (z : Z) : string := pretty z.

(** The numeral of a [fixed_text]. *)
Definition fixed (t : Double.fixed_text) : string :=
  match t with
  | Double.FixedDigits neg n places =>
      let unit := 10 ^ Z.of_nat places in
      let frac := pretty (n mod unit) in
      (if neg then "-" else "") +:+ pretty (n / unit) +:+
      match places with
      | O => ""
      | S _ => "." +:+ pad "0" (places - String.length frac) +:+ frac
      end
  | Double.FixedInf neg => if neg then "-inf" else "inf"
  | Double.FixedNan => "nan"
  end.

(** The lines [ship] writes. *)
Definition shipment (s : Shipment) : list string :=
  ["** Shipment notice **"]
  ++ map (fun '(count, n) => int count +:+ "x " +:+ n) (counts s)
  ++ map (fun t => fixed t +:+ "g") (unit_grams s)
  ++ ["Total package weight " +:+ fixed (total_kg s) +:+ "kg"].

Definition item_line (l : Z * string * option Z) : option string :=
  let '(qty, n, amount) := l in
  a ← amount; Some (int qty +:+ "x " +:+ left 12 n +:+ int a).

(** The lines from the receipt's title to [END.] and the empty line after
    it; none where a figure has no defined value. *)
Definition receipt (r : Receipt) : option (list string) :=
  ls ← mapM item_line (item_lines r);
  sub ← reported_subtotal r;
  ship ← reported_shipping r;
  amount ← reported_amount r;
  bal ← reported_balance r;
  Some (["** Checkout receipt **"] ++ ls
        ++ ["----------------------";
            "Subtotal         " +:+ int sub;
            "Shipping         " +:+ int ship;
            "Amount           " +:+ int amount;
            "Balance          " +:+ int bal;
            "END.";
            ""]).

Definition outcome (o : Outcome) : option (list string) :=
  match o with
  | Failed e => Some [message e]
  | Completed notice r =>
      ls ← receipt r;
      Some (from_option shipment [] notice ++ ls)
  end.
End Print.

(** The variables the first loop of [checkout] updates. *)
Record Totals : Type := mkTotals {
  subtotal : double;
  shippables : list ptr;
  nameToCount : gmap string Z
}.

Definition no_totals : Totals := mkTotals Double.zero [] ∅.

(** One turn of the first loop on an entry that passed both tests
    (lines 146-152). *)
Definition account (product : ptr) (p : Product) (qty : Z) (acc : Totals) : Totals :=
  let subtotal' := Double.add (subtotal acc) (Double.mul (getPrice p) (Double.of_Z qty)) in
  if isShippable p
  then mkTotals subtotal'
         (shippables acc ++ replicate (Z.to_nat qty) product)
         (<[getName p := qty]> (nameToCount acc))
  else mkTotals subtotal' (shippables acc) (nameToCount acc).

(** The first loop of [checkout] (lines 135-153), over the entries of the
    cart: it returns at the first entry that is expired or asks for more
    than the stock. *)
Fixpoint check_entries (now : time_t) (h : Heap) (entries : list (ptr * Z))
    (acc : Totals) : option (CheckoutError + Totals) :=
  match entries with
  | [] => Some (inr acc)
  | (product, qty) :: rest =>
      p ← h !! product;
      if isExpired now p then Some (inl (ExpiredProduct (getName p)))
      else if getQuantity p <? qty then Some (inl (InsufficientStock (getName p)))
      else check_entries now h rest (account product p qty acc)
  end.

(** [for (const auto& item : shippables) totalWeight += item->getWeight();]
    (line 155) *)
Fixpoint sum_weights (h : Heap) (items : list ptr) (totalWeight : double)
    : option double :=
  match items with
  | [] => Some totalWeight
  | item :: rest =>
      p ← h !! item;
      w ← getWeight p;
      sum_weights h rest (Double.add totalWeight w)
  end.

(** [shipping = std::ceil(totalWeight * 10) * 3;] (line 156) *)
Definition shipping_fee (totalWeight : double) : double :=
  Double.mul (Double.ceil (Double.mul totalWeight (Double.of_Z 10))) (Double.of_Z 3).

(** The item lines of the receipt, one per entry (lines 166-169). *)
Fixpoint receipt_lines (h : Heap) (entries : list (ptr * Z))
    : option (list (Z * string * option Z)) :=
  match entries with
  | [] => Some []
  | (product, qty) :: rest =>
      p ← h !! product;
      ls ← receipt_lines h rest;
      Some ((qty, getName p, Double.to_int (Double.mul (getPrice p) (Double.of_Z qty))) :: ls)
  end.

(** The last loop (lines 177-179):
    [entry.first->reduceQuantity(entry.second)]. *)
Fixpoint reduce_stock (h : Heap) (entries : list (ptr * Z)) : option Heap :=
  match entries with
  | [] => Some h
  | (product, qty) :: rest =>
      p ← h !! product;
      reduce_stock (<[product := reduceQuantity qty p]> h) rest
  end.

(** [void checkout(Customer& customer, Cart& cart)] (lines 126-181): what it
    writes and the objects as it leaves them. *)
Definition checkout (now : time_t) (w : World) : option (Outcome * World) :=
  if Cart.isEmpty (cart w) then Some (Failed EmptyCart, w)
  else
    r ← check_entries now (products w) (Cart.getItems (cart w)) no_totals;
    match r with
    | inl e => Some (Failed e, w)
    | inr acc =>
        totalWeight ← sum_weights (products w) (shippables acc) Double.zero;
        let shipping := shipping_fee totalWeight in
        let total := Double.add (subtotal acc) shipping in
        if Double.ltb (getBalance (customer w)) total
        then Some (Failed InsufficientBalance, w)
        else
          notice ← (match shippables acc with
                    | [] => Some None
                    | _ :: _ => ShippingService.ship (products w) (shippables acc)
                                  (nameToCount acc)
                    end);
          ls ← receipt_lines (products w) (Cart.getItems (cart w));
          let customer' := deductBalance total (customer w) in
          let receipt :=
            mkReceipt ls (Double.to_int (subtotal acc)) (Double.to_int shipping)
              (Double.to_int total) (Double.to_int (getBalance customer')) in
          products' ← reduce_stock (products w) (Cart.getItems (cart w));
          Some (Completed notice receipt,
                mkWorld products' customer' (Cart.clear (cart w)))
    end.

(** ** The quantities of a checkout, in the words of the specification *)

(** An entry passes the two tests of the first loop. *)
Definition entry_ok (now : time_t) (h : Heap) (e : ptr * Z) : Prop :=
  exists p, h !! e.1 = Some p /\ isExpired now p = false /\ e.2 <= getQuantity p.

(** [unit price * quantity] of one line. *)
Definition line_amount (h : Heap) (e : ptr * Z) : double :=
  match h !! e.1 with
  | Some p => Double.mul (getPrice p) (Double.of_Z e.2)
  | None => Double.zero
  end.

(** The sum of the line amounts, added up in the order of the entries. *)
Definition cart_subtotal (h : Heap) (entries : list (ptr * Z)) : double :=
  foldl (fun s e => Double.add s (line_amount h e)) Double.zero entries.

(** A shippable line of quantity [q] gives [q] units, each one carrying
    the product's weight; any other line gives none. *)
Definition line_units (h : Heap) (e : ptr * Z) : list double :=
  match h !! e.1 ≫= getWeight with
  | Some w => replicate (Z.to_nat e.2) w
  | None => []
  end.

Definition shipment_units (h : Heap) (entries : list (ptr * Z)) : list double :=
  concat (map (line_units h) entries).

(** The sum of the unit weights, added up one unit at a time. *)
Definition total_weight (units : list double) : double :=
  foldl Double.add Double.zero units.

Definition cart_shipping (h : Heap) (entries : list (ptr * Z)) : double :=
  shipping_fee (total_weight (shipment_units h entries)).

Definition cart_total (h : Heap) (entries : list (ptr * Z)) : double :=
  Double.add (cart_subtotal h entries) (cart_shipping h entries).

(** The receipt line of an entry. *)
Definition receipt_line (h : Heap) (e : ptr * Z) : Z * string * option Z :=
  (e.2, from_option getName "" (h !! e.1), Double.to_int (line_amount h e)).

(** The keys of a [std::map] are strictly ascending along its entries. *)
Definition ascending (entries : list (ptr * Z)) : Prop :=
  StronglySorted N.lt entries.*1.

(** The products named by a series of [add] calls, each at the place of
    its first call: the order of insertion. *)
Fixpoint insertion_order (calls : list (ptr * Z)) (seen : list ptr) : list ptr :=
  match calls with
  | [] => []
  | (product, _) :: rest =>
      if decide (product ∈ seen) then insertion_order rest seen
      else product :: insertion_order rest (product :: seen)
  end.

(** The checks of [checkout] run over the lines in a given order: the
    empty-cart check, then line by line the expiry check and the stock
    check, stopping at the first line that fails. *)
Fixpoint first_failing_line (now : time_t) (h : Heap) (lines : list (ptr * Z))
    : option CheckoutError :=
  match lines with
  | [] => None
  | (product, qty) :: rest =>
      match h !! product with
      | Some p =>
          if isExpired now p then Some (ExpiredProduct (getName p))
          else if getQuantity p <? qty then Some (InsufficientStock (getName p))
          else first_failing_line now h rest
      | None => None
      end
  end.

Definition checks_in_order (now : time_t) (h : Heap) (lines : list (ptr * Z))
    : option CheckoutError :=
  match lines with
  | [] => Some EmptyCart
  | _ :: _ => first_failing_line now h lines
  end.

(** The lines of a cart in the order its products were first added. *)
Definition lines_as_inserted (calls : list (ptr * Z)) (items : Cart.t)
    : list (ptr * Z) :=
  map (fun k => (k, default 0 (Cart.lookup k items))) (insertion_order calls []).

(** What the first loop has accumulated once every entry has passed. *)
Definition account_all (h : Heap) (entries : list (ptr * Z)) (acc : Totals) : Totals :=
  foldl (fun a e =>
           match h !! e.1 with
           | Some p => account e.1 p e.2 a
           | None => a
           end) acc entries.

(** The units pushed for one entry, as pointers. *)
Definition line_pointers (h : Heap) (e : ptr * Z) : list ptr :=
  match h !! e.1 with
  | Some p => if isShippable p then replicate (Z.to_nat e.2) e.1 else []
  | None => []
  end.

(** A unit points to a shippable product whose name has a count. *)
Definition unit_ok (h : Heap) (counts : gmap string Z) (item : ptr) : Prop :=
  exists p w, h !! item = Some p /\ getWeight p = Some w
              /\ is_Some (counts !! getName p).

(** The weights read through a list of [ShippableProduct*]. *)
Fixpoint unit_weights (h : Heap) (items : list ptr) : option (list double) :=
  match items with
  | [] => Some []
  | item :: rest =>
      p ← h !! item;
      w ← getWeight p;
      ws ← unit_weights h rest;
      Some (w :: ws)
  end.

(** A unit's line in the notice: [weight * 1000] with no decimals. *)
Definition grams (w : double) : Double.fixed_text :=
  Double.fixed 0 (Double.mul w (Double.of_Z 1000)).

(** The notice written for the units [units], [cs] being its count lines;
    none when there is no unit. *)
Definition notice_for (units : list double) (cs : list (Z * string))
    : option Shipment :=
  match units with
  | [] => None
  | _ :: _ => Some (mkShipment cs (map grams units)
                               (Double.fixed 1 (total_weight units)))
  end.

(** ** The program: [main] *)

Module Main.
(** A [try] block made of [add] calls on one cart: the calls are made in
    turn up to the first that throws; the handler writes [e.what()]. *)
Fixpoint try_adds (now : time_t) (h : Heap) (calls : list (ptr * Z))
    (items : Cart.t) : option (list string * Cart.t) :=
  match calls with
  | [] => Some ([], items)
  | (product, quantity) :: rest =>
      '(r, items') ← Cart.add now h product quantity items;
      match r with
      | Cart.Added => try_adds now h rest items'
      | Cart.Thrown e => Some ([Cart.what e], items')
      end
  end.

(** The five products of [main]; [expiry] is [mktime] of
    [makeDate(2025, 12, 31)]. *)
Definition cheese (expiry : time_t) : Product :=
  ExpirableShippableItem (mkProductData "Cheese" (Double.of_Z 100) 5)
    expiry (Double.lit 4 1).
Definition biscuits (expiry : time_t) : Product :=
  ExpirableShippableItem (mkProductData "Biscuits" (Double.of_Z 150) 2)
    expiry (Double.lit 7 1).
Definition tv : Product :=
  ShippableItem (mkProductData "TV" (Double.of_Z 150) 3) (Double.of_Z 7).
Definition mobile : Product :=
  SimpleProduct (mkProductData "Mobile" (Double.of_Z 200) 10).
Definition scratchCard : Product :=
  SimpleProduct (mkProductData "ScratchCard" (Double.of_Z 50) 20).

(** The heap after the five [std::make_unique], the objects being at the
    addresses [at_cheese] ... [at_scratchCard]. *)
Definition catalogue (expiry : time_t)
    (at_cheese at_biscuits at_tv at_mobile at_scratchCard : ptr) : Heap :=
  <[at_scratchCard := scratchCard]> (<[at_mobile := mobile]>
    (<[at_tv := tv]> (<[at_biscuits := biscuits expiry]>
      (<[at_cheese := cheese expiry]> ∅)))).

(** [int main()] (lines 194-235), run at the time [now]: the lines it
    writes, and the products and the customer when it returns. Every
    [time(0)] of the run is taken to read the same second [now]. *)
Definition main (now expiry : time_t)
    (at_cheese at_biscuits at_tv at_mobile at_scratchCard : ptr)
    : option (list string * Heap * Customer) :=
  let h0 := catalogue expiry at_cheese at_biscuits at_tv at_mobile at_scratchCard in
  let ali := mkCustomer "Ali" (Double.of_Z 1000) in
  '(out1, cart) ← try_adds now h0
     [(at_cheese, 2); (at_biscuits, 1); (at_tv, 0); (at_scratchCard, 1)] Cart.empty;
  '(o1, w1) ← checkout now (mkWorld h0 ali cart);
  out2 ← Print.outcome o1;
  '(out3, cart2) ← try_adds now (products w1) [(at_cheese, 10)] Cart.empty;
  '(r, cart2') ← Cart.add now (products w1) at_cheese 1 cart2;
  '(out4, h2, customer2) ←
    match r with
    | Cart.Thrown e => Some ([Cart.what e], products w1, customer w1)
    | Cart.Added =>
        p ← products w1 !! at_cheese;
        '(o2, w2) ← checkout now
           (mkWorld (<[at_cheese := reduceQuantity 5 p]> (products w1))
                    (customer w1) cart2');
        out ← Print.outcome o2;
        Some (out, products w2, customer w2)
    end;
  '(o3, w3) ← checkout now (mkWorld h2 customer2 Cart.empty);
  out5 ← Print.outcome o3;
  Some (out1 ++ out2 ++ out3 ++ out4 ++ out5, products w3, customer w3).

(** The first cart of [main] once both calls have succeeded, in the order
    a [std::map] keeps it. *)
Definition first_cart (at_cheese at_biscuits : ptr) : Cart.t :=
  if (at_cheese <? at_biscuits)%N
  then [(at_cheese, 2); (at_biscuits, 1)]
  else [(at_biscuits, 1); (at_cheese, 2)].

(** What the first checkout of [main] writes, Cheese first or Biscuits
    first. *)
Definition first_output (cheese_first : bool) : list string :=
  ["** Shipment notice **"]
  ++ (if cheese_first
      then ["2x Cheese"; "1x Biscuits"; "400g"; "400g"; "700g"]
      else ["1x Biscuits"; "2x Cheese"; "700g"; "400g"; "400g"])
  ++ ["Total package weight 1.5kg"; "** Checkout receipt **"]
  ++ (if cheese_first
      then ["2x Cheese      200"; "1x Biscuits    150"]
      else ["1x Biscuits    150"; "2x Cheese      200"])
  ++ ["----------------------"; "Subtotal         350"; "Shipping         45";
      "Amount           395"; "Balance          605"; "END."; ""].

(** The whole output of a run before the expiry date, and of a run after
    it. *)
Definition output_in_date (cheese_first : bool) : list string :=
  ["Quantity must be positive"]
  ++ first_output cheese_first
  ++ ["Not enough stock for Cheese";
      "Error: Not enough stock for Cheese";
      "Error: Cart is empty"].

Definition output_expired : list string :=
  ["Cheese is expired"; "Error: Cart is empty"; "Cheese is expired";
   "Cheese is expired"; "Error: Cart is empty"].
End Main.

(** ** Further notions used to state properties of the code *)

(** [p] with its stock set to [q] and nothing else changed. *)
Definition with_quantity (q : Z) (p : Product) : Product :=
  let b := mkProductData (name (base_of p)) (price (base_of p)) q in
  match p with
  | SimpleProduct _ => SimpleProduct b
  | ExpirableProduct _ d => ExpirableProduct b d
  | ShippableItem _ w => ShippableItem b w
  | ExpirableShippableItem _ d w => ExpirableShippableItem b d w
  end.

(** Every stock of the heap is a non-negative [int]. *)
Definition stocks_in_range (h : Heap) : Prop :=
  forall k p, h !! k = Some p -> 0 <= getQuantity p <= Int.INT_MAX.

(** The call [add(product, quantity)] passes the three tests of [add]. *)
Definition accepted (now : time_t) (h : Heap) (call : ptr * Z) : bool :=
  match h !! call.1 with
  | Some p => (0 <? call.2) && negb (isExpired now p) && (call.2 <=? getQuantity p)
  | None => false
  end.

(** The quantities of the calls of a series that are made for [k] and
    pass the tests, in the order of the calls. *)
Fixpoint accepted_quantities (now : time_t) (h : Heap) (k : ptr)
    (calls : list (ptr * Z)) : list Z :=
  match calls with
  | [] => []
  | call :: rest =>
      if decide (call.1 = k) then
        if accepted now h call
        then call.2 :: accepted_quantities now h k rest
        else accepted_quantities now h k rest
      else accepted_quantities now h k rest
  end.

Definition sum (qs : list Z) : Z := foldr Z.add 0 qs.

(** The shippable entries of a cart, each with its product. *)
Fixpoint shippable_lines (h : Heap) (entries : list (ptr * Z))
    : list (Z * string) :=
  match entries with
  | [] => []
  | e :: rest =>
      match h !! e.1 with
      | Some p =>
          if isShippable p then (e.2, getName p) :: shippable_lines h rest
          else shippable_lines h rest
      | None => shippable_lines h rest
      end
  end.

(** ** Sample data: the catalogue of [main] *)

Module Demo.
(** [makeDate(2025, 12, 31)] through [mktime] (taken in UTC), a day in July
    2025 and the first day of 2027. *)
Definition expiry : time_t := 1767139200.
Definition today : time_t := 1751328000.
Definition later : time_t := 1798761600.

Definition cheese : Product :=
  ExpirableShippableItem (mkProductData "Cheese" (Double.of_Z 100) 5)
    expiry (Double.lit 4 1).
Definition biscuits : Product :=
  ExpirableShippableItem (mkProductData "Biscuits" (Double.of_Z 150) 2)
    expiry (Double.lit 7 1).
Definition scratchCard : Product :=
  SimpleProduct (mkProductData "ScratchCard" (Double.of_Z 50) 20).

(** Where the three objects live. *)
Definition cheese_at : ptr := 16%N.
Definition biscuits_at : ptr := 32%N.
Definition scratchCard_at : ptr := 48%N.

(** Two products that are not in [main]: one whose price has cents, one
    whose weight is not a whole number of grams once in binary. *)
Definition snack : Product :=
  SimpleProduct (mkProductData "Snack" (Double.lit 3333 2) 10).
Definition parcel : Product :=
  ShippableItem (mkProductData "Parcel" (Double.of_Z 20) 4) (Double.lit 4006 4).
Definition snack_at : ptr := 64%N.
Definition parcel_at : ptr := 80%N.

Definition catalogue : Heap :=
  <[cheese_at := cheese]> (<[biscuits_at := biscuits]>
    (<[scratchCard_at := scratchCard]> (<[snack_at := snack]>
      (<[parcel_at := parcel]> ∅)))).

Definition ali : Customer := mkCustomer "Ali" (Double.of_Z 1000).
Definition poor : Customer := mkCustomer "Ali" (Double.of_Z 10).

(** Cheese x2 and ScratchCard x1. *)
Definition basket : Cart.t := [(cheese_at, 2); (scratchCard_at, 1)].

Definition scenario_A : World := mkWorld catalogue ali basket.

(** Snack x3: 33.33 x 3. *)
Definition cents : World := mkWorld catalogue ali [(snack_at, 3)].

(** The first cart of [main]: Cheese x2 and Biscuits x1 are added, the call
    for TV x0 throws, and the call for ScratchCard is never reached. *)
Definition first_cart : World :=
  mkWorld catalogue ali [(cheese_at, 2); (biscuits_at, 1)].

(** Biscuits first, then Cheese, which lives at the lower address. *)
Definition biscuits_then_cheese : list (ptr * Z) :=
  [(biscuits_at, 1); (cheese_at, 2)].

(** The cart these two calls build. *)
Definition cheese_and_biscuits : Cart.t :=
  [(cheese_at, 2); (biscuits_at, 1)].
Definition scenario_C : World := mkWorld catalogue poor basket.
End Demo.

(** * Properties *)

(** Closes [entry_ok] at a concrete entry by reading the heap. *)
Ltac passes_here :=
  unfold entry_ok; eexists;
  split; [vm_compute; reflexivity | split; [reflexivity | vm_compute; discriminate]].

(** The same for every entry of a concrete cart. *)
Ltac all_pass :=
  match goal with
  | |- Forall _ ?l => let l' := eval cbv in l in change l with l'
  end;
  repeat (first [apply Forall_nil_2 | apply Forall_cons_2; [passes_here|]]).

(** ** Numbers *)

Module IntFacts.
Lemma wrap_in_range z : Int.in_range z -> Int.wrap z = z.
Proof.
  unfold Int.in_range, Int.INT_MIN, Int.INT_MAX, Int.wrap. intros Hz.
  rewrite Z.mod_small; lia.
Qed.
End IntFacts.

Module DoubleFacts.
Import Double.

Lemma pow2_pos e : e < 0 -> 0 < 2 ^ (- e).
Proof. intros. apply Z.pow_pos_nonneg; lia. Qed.

(** [trunc] cuts the fraction off, toward zero. *)
Lemma trunc_truncation x z : trunc x = Some z -> truncation_of x z.
Proof.
  unfold truncation_of. destruct x as [s|s| |s m e]; simpl; intros Hz;
    try discriminate; injection Hz as <-.
  - unfold Qle, Qlt. simpl. lia.
  - destruct (Z.leb_spec 0 e) as [He|He].
    + rewrite <- !Zle_Qle, <- !Zlt_Qlt. lia.
    + pose proof (pow2_pos e He) as Hd.
      unfold Qle, Qlt. simpl. rewrite Z2Pos.id by exact Hd.
      set (d := 2 ^ (- e)) in *.
      pose proof (Z.div_mod (Z.pos m) d ltac:(lia)) as Hdm.
      pose proof (Z.mod_pos_bound (Z.pos m) d Hd) as Hr.
      destruct s; simpl; split; intros H; split; nia.
Qed.

(** [static_cast<int>] yields the truncation, and only a value of [int]. *)
Lemma to_int_truncation x z :
  to_int x = Some z -> truncation_of x z /\ Int.in_range z.
Proof.
  unfold to_int. destruct (trunc x) as [z0|] eqn:Ht; [|done].
  destruct (Z.leb_spec Int.INT_MIN z0), (Z.leb_spec z0 Int.INT_MAX);
    simpl; intros Hz; try discriminate. injection Hz as <-.
  split; [by apply trunc_truncation | done].
Qed.

Lemma round_half_even_nearest num den :
  0 < den ->
  2 * round_half_even num den * den - den <= 2 * num
  <= 2 * round_half_even num den * den + den.
Proof.
  intros Hd. unfold round_half_even.
  pose proof (Z.div_mod num den ltac:(lia)) as Hdm.
  pose proof (Z.mod_pos_bound num den Hd) as Hr.
  destruct (Z.compare_spec (2 * (num mod den)) den) as [H|H|H];
    [destruct (Z.even (num / den))| |]; nia.
Qed.

(** [std::fixed] writes a nearest numeral: it rounds, it does not cut. *)
Lemma fixed_nearest places x :
  is_finite x = true ->
  exists s n, fixed places x = FixedDigits s n places /\ nearest_numeral places x n.
Proof.
  unfold nearest_numeral. destruct x as [s|s| |s m e]; try discriminate; intros _.
  - exists s, 0. split; [done|]. simpl. unfold Qle. simpl. lia.
  - exists s. eexists. split; [reflexivity|]. simpl.
    destruct (Z.leb_spec 0 e) as [He|He].
    + rewrite <- inject_Z_mult.
      replace (Z.pos m * 2 ^ e * 10 ^ Z.of_nat places)
        with (Z.pos m * 10 ^ Z.of_nat places * 2 ^ e) by ring.
      set (x := inject_Z _). split.
      * rewrite <- (Qplus_0_r x) at 2. unfold Qminus. apply Qplus_le_r. discriminate.
      * rewrite <- (Qplus_0_r x) at 1. apply Qplus_le_r. discriminate.
    + pose proof (pow2_pos e He) as Hd.
      pose proof (round_half_even_nearest (Z.pos m * 10 ^ Z.of_nat places) _ Hd) as Hn.
      set (n := round_half_even _ _) in *.
      set (t := 10 ^ Z.of_nat places) in *.
      unfold Qle, Qminus, Qplus, Qmult, Qopp, inject_Z. cbn [Qnum Qden].
      rewrite ?Pos.mul_1_r, ?Pos2Z.inj_mul, ?Z2Pos.id by exact Hd.
      set (d := 2 ^ (- e)) in *. rewrite ?Z.mul_1_r. nia.
Qed.
(** *** Integers up to 2^53 convert exactly *)

Lemma digits2_pos_bound p :
  2 ^ (Z.pos (digits2_pos p) - 1) <= Z.pos p < 2 ^ Z.pos (digits2_pos p).
Proof.
  induction p as [p IH|p IH|]; simpl digits2_pos.
  - rewrite Pos2Z.inj_succ.
    replace (Z.succ (Z.pos (digits2_pos p)) - 1)
      with (Z.succ (Z.pos (digits2_pos p) - 1)) by lia.
    rewrite !Z.pow_succ_r by lia. lia.
  - rewrite Pos2Z.inj_succ.
    replace (Z.succ (Z.pos (digits2_pos p)) - 1)
      with (Z.succ (Z.pos (digits2_pos p) - 1)) by lia.
    rewrite !Z.pow_succ_r by lia. lia.
  - simpl. lia.
Qed.

Lemma digits2_pos_le p n : 0 <= n -> Z.pos p < 2 ^ n -> Z.pos (digits2_pos p) <= n.
Proof.
  intros Hn Hp. pose proof (digits2_pos_bound p) as [Hlo _].
  apply Z.nlt_ge. intros Hlt.
  assert (2 ^ n <= 2 ^ (Z.pos (digits2_pos p) - 1))
    by (apply Z.pow_le_mono_r; lia).
  lia.
Qed.

Lemma iter_xO_value p d : Z.pos (Pos.iter xO p d) = Z.pos p * 2 ^ Z.pos d.
Proof.
  induction d as [|d IH] using Pos.peano_ind.
  - simpl. lia.
  - rewrite Pos.iter_succ, Pos2Z.inj_succ, Z.pow_succ_r by lia.
    rewrite Pos2Z.inj_xO, IH. ring.
Qed.

Lemma iter_xO_digits p d :
  digits2_pos (Pos.iter xO p d) = (digits2_pos p + d)%positive.
Proof.
  induction d as [|d IH] using Pos.peano_ind.
  - simpl. lia.
  - rewrite Pos.iter_succ. simpl. rewrite IH. lia.
Qed.

Lemma shr_fexp_exact m e :
  Z.pos (digits2_pos m) = 53 -> -52 <= e <= 0 ->
  shr_fexp prec emax (Z.pos m) e loc_Exact
  = ({| shr_m := Z.pos m; shr_r := false; shr_s := false |}, e).
Proof.
  intros Hm He. unfold shr_fexp, Zdigits2. rewrite Hm.
  assert (fexp prec emax (53 + e) - e = 0) as ->
    by (unfold fexp, emin, prec, emax; lia).
  reflexivity.
Qed.

Lemma binary_round_aux_exact s m e :
  Z.pos (digits2_pos m) = 53 -> -52 <= e <= 0 ->
  binary_round_aux prec emax s (Z.pos m) e loc_Exact = S754_finite s m e.
Proof.
  intros Hm He. unfold binary_round_aux.
  rewrite (shr_fexp_exact m e Hm He).
  cbn [shr_m loc_of_shr_record round_nearest_even].
  rewrite (shr_fexp_exact m e Hm He). cbn [shr_m].
  unfold emax, prec. destruct (Z.leb_spec e (1024 - 53)); [reflexivity | lia].
Qed.

Lemma binary_round_exact s p :
  Z.pos (digits2_pos p) <= 53 ->
  exists m e, binary_round prec emax s p 0 = S754_finite s m e
              /\ e <= 0 /\ Z.pos m = Z.pos p * 2 ^ (- e).
Proof.
  intros Hd. unfold binary_round.
  assert (Hf : fexp prec emax (Z.pos (digits2_pos p) + 0)
               = Z.pos (digits2_pos p) - 53).
  { unfold fexp, emin, prec, emax. lia. }
  rewrite Hf. unfold shl_align.
  destruct (Z.pos (digits2_pos p) - 53 - 0) as [|d|d] eqn:Hsub; try lia.
  - exists p, 0. rewrite binary_round_aux_exact by lia.
    split; [reflexivity|]. split; [lia|]. simpl. lia.
  - exists (Pos.iter xO p d), (Z.pos (digits2_pos p) - 53).
    rewrite binary_round_aux_exact.
    + split; [reflexivity|]. split; [lia|].
      rewrite iter_xO_value. f_equal. f_equal. lia.
    + rewrite iter_xO_digits. lia.
    + lia.
Qed.

Lemma value_exact s m e p :
  e <= 0 -> Z.pos m = Z.pos p * 2 ^ (- e) ->
  (value (S754_finite s m e) == inject_Z (cond_Zopp s (Z.pos p)))%Q.
Proof.
  intros He Hm. unfold value.
  destruct (Z.leb_spec 0 e) as [He0|He0].
  - assert (e = 0) as -> by lia. simpl in Hm.
    unfold Qeq. simpl. destruct s; simpl; lia.
  - pose proof (pow2_pos e He0) as Hd.
    unfold Qeq. cbn [Qnum Qden inject_Z]. rewrite Z2Pos.id by exact Hd.
    destruct s; cbn [cond_Zopp]; nia.
Qed.

Lemma of_Z_value z :
  Z.abs z < 2 ^ 53 ->
  is_finite (of_Z z) = true /\ (value (of_Z z) == inject_Z z)%Q.
Proof.
  intros Hz. unfold of_Z, binary_normalize. destruct z as [|p|p].
  - split; reflexivity.
  - destruct (binary_round_exact false p) as (m & e & -> & He & Hm).
    { apply digits2_pos_le; lia. }
    split; [reflexivity|]. exact (value_exact false m e p He Hm).
  - destruct (binary_round_exact true p) as (m & e & -> & He & Hm).
    { apply digits2_pos_le; lia. }
    split; [reflexivity|]. exact (value_exact true m e p He Hm).
Qed.

Lemma valid_digits s m e :
  valid (S754_finite s m e) = true -> Z.pos m < 2 ^ 53.
Proof.
  unfold valid, valid_binary, bounded, canonical_mantissa.
  intros H. apply andb_prop in H as [H _]. apply Z.eqb_eq in H.
  pose proof (digits2_pos_bound m) as [_ Hhi].
  assert (Z.pos (digits2_pos m) <= 53)
    by (unfold fexp, emin, prec, emax in H; lia).
  assert (2 ^ Z.pos (digits2_pos m) <= 2 ^ 53)
    by (apply Z.pow_le_mono_r; lia).
  lia.
Qed.

(** [ceil] yields the least integer not below its argument. *)
Lemma ceil_ceiling x :
  valid x = true -> is_finite x = true ->
  exists c, is_finite (ceil x) = true
            /\ (value (ceil x) == inject_Z c)%Q /\ ceiling_of x c.
Proof.
  unfold ceiling_of.
  destruct x as [s|s| |s m e]; try discriminate; intros Hv _.
  - exists 0. repeat split; try reflexivity. unfold Qle. simpl. lia.
  - pose proof (valid_digits s m e Hv) as Hm. unfold ceil.
    destruct (Z.leb_spec 0 e) as [He|He].
    + exists (cond_Zopp s (Z.pos m * 2 ^ e)). split; [reflexivity|].
      unfold value. destruct (Z.leb_spec 0 e); [|lia].
      split; [reflexivity|]. rewrite <- Zlt_Qlt, <- Zle_Qle. lia.
    + pose proof (pow2_pos e He) as Hd.
      set (d := 2 ^ (- e)) in *.
      pose proof (Z.div_mod (Z.pos m) d ltac:(lia)) as Hdm.
      pose proof (Z.mod_pos_bound (Z.pos m) d Hd) as Hr.
      assert (Hq : 0 <= Z.pos m / d <= Z.pos m).
      { split; [apply Z.div_pos; lia|]. apply Z.div_le_upper_bound; nia. }
      assert (H2 : 2 <= d).
      { unfold d. change 2 with (2 ^ 1) at 1. apply Z.pow_le_mono_r; lia. }
      assert (Hval : value (S754_finite s m e)
                     = Qmake (cond_Zopp s (Z.pos m)) (Z.to_pos d)).
      { unfold value. destruct (Z.leb_spec 0 e); [lia | reflexivity]. }
      destruct s.
      * destruct (Z.eqb_spec (Z.pos m / d) 0) as [Hq0|Hq0].
        -- exists 0. split; [reflexivity|]. split; [reflexivity|].
           rewrite Hval. unfold Qlt, Qle. cbn [Qnum Qden inject_Z cond_Zopp].
           rewrite Z2Pos.id by exact Hd. nia.
        -- exists (- (Z.pos m / d)).
           destruct (of_Z_value (- (Z.pos m / d))) as [Hfin Hv']; [lia|].
           split; [exact Hfin|]. split; [exact Hv'|].
           rewrite Hval. unfold Qlt, Qle. cbn [Qnum Qden inject_Z cond_Zopp].
           rewrite Z2Pos.id by exact Hd. nia.
      * set (c := if Z.pos m mod d =? 0 then Z.pos m / d else Z.pos m / d + 1).
        assert (Hc : 0 <= c <= Z.pos m /\ (c - 1) * d < Z.pos m <= c * d).
        { unfold c. destruct (Z.eqb_spec (Z.pos m mod d) 0); nia. }
        exists c. destruct (of_Z_value c) as [Hfin Hv']; [lia|].
        split; [exact Hfin|]. split; [exact Hv'|].
        rewrite Hval. unfold Qlt, Qle. cbn [Qnum Qden inject_Z cond_Zopp].
        rewrite Z2Pos.id by exact Hd. nia.
Qed.
End DoubleFacts.

(** ** The first loop of [checkout] *)

Section FirstLoop.
Variable now : time_t.
Variable h : Heap.

Lemma check_entries_pass entries acc :
  Forall (entry_ok now h) entries ->
  check_entries now h entries acc = Some (inr (account_all h entries acc)).
Proof.
  intros Hok. revert acc.
  induction Hok as [|[product qty] rest (p & Hp & Hexp & Hq) _ IH]; intros acc.
  - reflexivity.
  - simpl in *. rewrite Hp. simpl. rewrite Hexp.
    destruct (Z.ltb_spec (getQuantity p) qty) as [Hlt|_]; [lia|].
    apply IH.
Qed.

Lemma check_entries_inr entries acc acc' :
  check_entries now h entries acc = Some (inr acc') ->
  Forall (entry_ok now h) entries /\ acc' = account_all h entries acc.
Proof.
  revert acc. induction entries as [|[product qty] rest IH]; intros acc Hrun.
  - simpl in Hrun. injection Hrun as <-. split; [constructor | reflexivity].
  - simpl in Hrun.
    destruct (h !! product) as [p|] eqn:Hp; [|discriminate].
    simpl in Hrun.
    destruct (isExpired now p) eqn:Hexp; [discriminate|].
    destruct (Z.ltb_spec (getQuantity p) qty) as [|Hq]; [discriminate|].
    destruct (IH _ Hrun) as [Hrest ->]. split.
    + constructor; [exists p; auto | exact Hrest].
    + simpl. rewrite Hp. reflexivity.
Qed.

(** The loop stops at the first entry that fails a test. *)
Lemma check_entries_app pre e post acc :
  Forall (entry_ok now h) pre ->
  check_entries now h (pre ++ e :: post) acc
  = check_entries now h (e :: post) (account_all h pre acc).
Proof.
  intros Hok. revert acc.
  induction Hok as [|[product qty] rest (p & Hp & Hexp & Hq) _ IH]; intros acc.
  - reflexivity.
  - simpl in *. rewrite Hp. simpl. rewrite Hexp.
    destruct (Z.ltb_spec (getQuantity p) qty) as [Hlt|_]; [lia|].
    apply IH.
Qed.

Lemma subtotal_account_all entries acc :
  Forall (entry_ok now h) entries ->
  subtotal (account_all h entries acc)
  = foldl (fun s e => Double.add s (line_amount h e)) (subtotal acc) entries.
Proof.
  intros Hok. revert acc.
  induction Hok as [|[product qty] rest (p & Hp & _) _ IH]; intros acc.
  - reflexivity.
  - unfold account_all in *. simpl in *. rewrite IH. f_equal.
    unfold line_amount. simpl. rewrite Hp.
    unfold account. destruct (isShippable p); reflexivity.
Qed.

Lemma shippables_account_all entries acc :
  shippables (account_all h entries acc)
  = shippables acc ++ concat (map (line_pointers h) entries).
Proof.
  revert acc. induction entries as [|[product qty] rest IH]; intros acc.
  - simpl. by rewrite app_nil_r.
  - unfold account_all in *. simpl. rewrite IH. unfold line_pointers at 2.
    simpl. destruct (h !! product) as [p|]; [|done].
    unfold account. destruct (isShippable p); simpl; [|done].
    by rewrite <- app_assoc.
Qed.

Lemma unit_ok_insert counts n q item :
  unit_ok h counts item -> unit_ok h (<[n := q]> counts) item.
Proof.
  intros (p & w & Hp & Hw & Hc). exists p, w. repeat split; try done.
  rewrite lookup_insert_is_Some. destruct (decide (n = getName p)); auto.
Qed.

Lemma isShippable_weight p : isShippable p = true -> is_Some (getWeight p).
Proof. destruct p; simpl; intros; try discriminate; eauto. Qed.

Lemma weight_isShippable p w : getWeight p = Some w -> isShippable p = true.
Proof. destruct p; simpl; intros; try discriminate; eauto. Qed.

Lemma units_ok_account_all entries acc :
  Forall (unit_ok h (nameToCount acc)) (shippables acc) ->
  Forall (unit_ok h (nameToCount (account_all h entries acc)))
         (shippables (account_all h entries acc)).
Proof.
  revert acc. induction entries as [|[product qty] rest IH]; intros acc Hacc.
  - exact Hacc.
  - unfold account_all in *. simpl. apply IH.
    destruct (h !! product) as [p|] eqn:Hp; [|exact Hacc].
    unfold account. destruct (isShippable p) eqn:Hs; simpl; [|exact Hacc].
    apply Forall_app. split.
    + eapply Forall_impl; [exact Hacc|]. intros item. apply unit_ok_insert.
    + apply Forall_replicate.
      destruct (isShippable_weight p Hs) as [w Hw].
      exists p, w. repeat split; try done.
      rewrite lookup_insert_eq. eauto.
Qed.
End FirstLoop.

(** ** The units of a shipment and their weights *)

Section Units.
Variable h : Heap.

Lemma sum_weights_unit_weights items tw :
  sum_weights h items tw = ws ← unit_weights h items; Some (foldl Double.add tw ws).
Proof.
  revert tw. induction items as [|item rest IH]; intros tw; [done|].
  simpl. destruct (h !! item) as [p|]; [|done]. simpl.
  destruct (getWeight p) as [w|]; [|done]. simpl.
  rewrite IH. by destruct (unit_weights h rest).
Qed.

Lemma weight_lines_unit_weights items tw :
  ShippingService.weight_lines h items tw
  = ws ← unit_weights h items; Some (map grams ws, foldl Double.add tw ws).
Proof.
  revert tw. induction items as [|item rest IH]; intros tw; [done|].
  simpl. destruct (h !! item) as [p|]; [|done]. simpl.
  destruct (getWeight p) as [w|]; [|done]. simpl.
  rewrite IH. by destruct (unit_weights h rest).
Qed.

Lemma unit_weights_app l1 l2 ws1 ws2 :
  unit_weights h l1 = Some ws1 -> unit_weights h l2 = Some ws2 ->
  unit_weights h (l1 ++ l2) = Some (ws1 ++ ws2).
Proof.
  revert ws1. induction l1 as [|item rest IH]; intros ws1 H1 H2.
  - simpl in H1. injection H1 as <-. exact H2.
  - simpl in *. destruct (h !! item) as [p|]; [|done]. simpl in *.
    destruct (getWeight p) as [w|]; [|done]. simpl in *.
    destruct (unit_weights h rest) as [ws|]; [|done]. simpl in *.
    injection H1 as <-. by rewrite (IH ws).
Qed.

Lemma unit_weights_replicate n item p w :
  h !! item = Some p -> getWeight p = Some w ->
  unit_weights h (replicate n item) = Some (replicate n w).
Proof.
  intros Hp Hw. induction n as [|n IH]; [done|].
  simpl. rewrite Hp. simpl. rewrite Hw. simpl. by rewrite IH.
Qed.

(** The pointers the first loop collects carry the weights of the
    expansion of the cart into units. *)
Lemma unit_weights_line_pointers entries :
  unit_weights h (concat (map (line_pointers h) entries))
  = Some (shipment_units h entries).
Proof.
  induction entries as [|[product qty] rest IH]; [done|].
  unfold shipment_units in *. simpl.
  apply unit_weights_app; [|exact IH].
  unfold line_pointers, line_units. simpl.
  destruct (h !! product) as [p|] eqn:Hp; [|done]. simpl.
  destruct (isShippable p) eqn:Hs.
  - destruct (isShippable_weight p Hs) as [w Hw]. rewrite Hw.
    by apply unit_weights_replicate with p.
  - destruct (getWeight p) as [w|] eqn:Hw; [|done].
    apply weight_isShippable in Hw. congruence.
Qed.

Lemma count_lines_total items counts printed :
  Forall (unit_ok h counts) items ->
  is_Some (ShippingService.count_lines h items counts printed).
Proof.
  intros Hok. revert printed.
  induction Hok as [|item rest (p & w & Hp & _ & [c Hc]) _ IH]; intros printed.
  - by eexists.
  - simpl. rewrite Hp. simpl. case_decide; [apply IH|].
    rewrite Hc. simpl.
    destruct (IH ({[getName p]} ∪ printed)) as [ls ->]. by eexists.
Qed.
End Units.

(** ** The entries of a cart *)

Module CartFacts.
Import Cart.

Lemma lookup_None k (items : t) : k ∉ items.*1 -> lookup k items = None.
Proof.
  induction items as [|[k' v] rest IH]; intros Hk; [done|].
  simpl in *. apply not_elem_of_cons in Hk as [Hne Hk].
  destruct (N.eqb_spec k k'); [done | auto].
Qed.

Lemma lookup_Some k v (items : t) : lookup k items = Some v -> (k, v) ∈ items.
Proof.
  induction items as [|[k' v'] rest IH]; intros Hk; [done|].
  simpl in Hk. destruct (N.eqb_spec k k') as [->|].
  - injection Hk as ->. left.
  - right. auto.
Qed.

Lemma ascending_cons k v (items : t) :
  ascending ((k, v) :: items) <-> Forall (fun e => (k < e.1)%N) items /\ ascending items.
Proof.
  unfold ascending. rewrite fmap_cons. split.
  - intros H. apply StronglySorted_inv in H as [Hs Hall]. split; [|done].
    rewrite Forall_fmap in Hall. exact Hall.
  - intros [Hall Hs]. constructor; [done|]. rewrite Forall_fmap. exact Hall.
Qed.

Lemma ascending_NoDup (items : t) : ascending items -> NoDup items.*1.
Proof.
  induction items as [|[k v] rest IH]; intros H; [constructor|].
  apply ascending_cons in H as [Hall Hs]. simpl. constructor; [|auto].
  intros Hin. apply list_elem_of_fmap in Hin as ([k' v'] & -> & Hin).
  rewrite Forall_forall in Hall. specialize (Hall _ Hin). simpl in Hall. lia.
Qed.

Lemma update_keys f k k0 (items : t) :
  k0 ∈ (update f k items).*1 <-> k0 = k \/ k0 ∈ items.*1.
Proof.
  induction items as [|[k' v] rest IH].
  - simpl. rewrite list_elem_of_singleton, elem_of_nil. tauto.
  - simpl. destruct (N.ltb_spec k k').
    + rewrite !fmap_cons, !elem_of_cons. simpl. tauto.
    + destruct (N.eqb_spec k k') as [->|].
      * rewrite !fmap_cons, !elem_of_cons. simpl. tauto.
      * rewrite !fmap_cons, !elem_of_cons, IH. simpl. tauto.
Qed.

Lemma update_ascending f k (items : t) :
  ascending items -> ascending (update f k items).
Proof.
  induction items as [|[k' v] rest IH]; intros Hs; simpl.
  - apply ascending_cons. split; [constructor | done].
  - destruct (N.ltb_spec k k') as [Hlt|Hge].
    + apply ascending_cons. split; [|done].
      apply ascending_cons in Hs as [Hall _].
      constructor; [done|]. eapply Forall_impl; [exact Hall|].
      simpl. intros; lia.
    + destruct (N.eqb_spec k k') as [->|Hne].
      * apply ascending_cons in Hs as [Hall Hs]. by apply ascending_cons.
      * apply ascending_cons in Hs as [Hall Hs]. apply ascending_cons.
        split; [|auto].
        apply Forall_forall. intros [k1 v1] Hin. simpl.
        assert (Hk1 : k1 ∈ (update f k rest).*1)
          by (apply list_elem_of_fmap; by exists (k1, v1)).
        apply update_keys in Hk1 as [->|Hk1]; [lia|].
        apply list_elem_of_fmap in Hk1 as ([k2 v2] & -> & Hin2).
        rewrite Forall_forall in Hall. apply (Hall _ Hin2).
Qed.

Lemma lookup_update_ne f k k0 (items : t) :
  k0 <> k -> lookup k0 (update f k items) = lookup k0 items.
Proof.
  intros Hne. induction items as [|[k' v] rest IH]; simpl.
  - by destruct (N.eqb_spec k0 k).
  - destruct (N.ltb_spec k k'); simpl.
    + by destruct (N.eqb_spec k0 k).
    + destruct (N.eqb_spec k k') as [->|]; simpl.
      * by destruct (N.eqb_spec k0 k').
      * by rewrite IH.
Qed.

Lemma lookup_update_eq f k (items : t) :
  ascending items ->
  lookup k (update f k items) = Some (f (default 0 (lookup k items))).
Proof.
  induction items as [|[k' v] rest IH]; intros Hs; simpl.
  - by rewrite N.eqb_refl.
  - apply ascending_cons in Hs as [Hall Hs].
    destruct (N.ltb_spec k k') as [Hlt|Hge]; simpl.
    + rewrite N.eqb_refl.
      destruct (N.eqb_spec k k') as [->|_]; [lia|].
      rewrite lookup_None; [done|].
      intros Hin. apply list_elem_of_fmap in Hin as ([k2 v2] & -> & Hin).
      rewrite Forall_forall in Hall. specialize (Hall _ Hin). simpl in *. lia.
    + destruct (N.eqb_spec k k') as [->|Hne]; simpl.
      * by rewrite N.eqb_refl.
      * destruct (N.eqb_spec k k'); [done | auto].
Qed.

(** Every cart obtained from the empty one by [add] calls is ascending. *)
Lemma add_ascending now h product quantity (items items' : t) r :
  add now h product quantity items = Some (r, items') ->
  ascending items -> ascending items'.
Proof.
  unfold add. intros Hadd Hs.
  destruct (quantity <=? 0); [by simplify_eq|].
  destruct (h !! product) as [p|]; [|done]. simpl in Hadd.
  destruct (isExpired now p); [by simplify_eq|].
  destruct (getQuantity p <? quantity); simplify_eq; [done|].
  by apply update_ascending.
Qed.

Lemma add_all_ascending now h calls (items items' : t) rs :
  add_all now h calls items = Some (rs, items') ->
  ascending items -> ascending items'.
Proof.
  revert items rs. induction calls as [|[product quantity] rest IH];
    intros items rs Hall Hs; simpl in Hall.
  - by simplify_eq.
  - destruct (add now h product quantity items) as [[r items1]|] eqn:Hadd;
      [|done]. simpl in Hall.
    destruct (add_all now h rest items1) as [[rs' items2]|] eqn:Hrest;
      [|done]. simpl in Hall. simplify_eq.
    eapply IH; [exact Hrest|]. by eapply add_ascending.
Qed.
End CartFacts.

(** ** Settlement *)

Lemma getQuantity_reduceQuantity amount p :
  getQuantity (reduceQuantity amount p) = Int.sub (getQuantity p) amount.
Proof. by destruct p. Qed.

Lemma entry_ok_live now h e : entry_ok now h e -> is_Some (h !! e.1).
Proof. intros (p & Hp & _). eauto. Qed.

Lemma receipt_lines_map h entries :
  Forall (fun e => is_Some (h !! e.1)) entries ->
  receipt_lines h entries = Some (map (receipt_line h) entries).
Proof.
  induction 1 as [|[product qty] rest [p Hp] _ IH]; [done|].
  simpl in *. rewrite Hp. simpl. rewrite IH. simpl.
  unfold receipt_line, line_amount. simpl. by rewrite Hp.
Qed.

Lemma reduce_stock_total entries : forall h,
  Forall (fun e => is_Some (h !! e.1)) entries ->
  is_Some (reduce_stock h entries).
Proof.
  induction entries as [|[product qty] rest IH]; intros h Hlive; [by eexists|].
  apply Forall_cons in Hlive as [[p Hp] Hlive]. simpl in *. rewrite Hp. simpl.
  apply IH. eapply Forall_impl; [exact Hlive|]. intros e He.
  rewrite lookup_insert_is_Some. destruct (decide (product = e.1)); auto.
Qed.

(** With one entry per product, each product of the cart loses the
    quantity of its entry once, and no other product changes. *)
Lemma reduce_stock_lookup entries : forall h h',
  NoDup entries.*1 ->
  reduce_stock h entries = Some h' ->
  forall k, h' !! k = match Cart.lookup k entries with
                      | Some q => reduceQuantity q <$> h !! k
                      | None => h !! k
                      end.
Proof.
  induction entries as [|[product qty] rest IH]; intros h h' Hnd Hrun k.
  - simpl in *. congruence.
  - rewrite fmap_cons in Hnd. apply NoDup_cons in Hnd as [Hfresh Hnd].
    simpl in *. destruct (h !! product) as [p|] eqn:Hp; [|done].
    simpl in Hrun. rewrite (IH _ _ Hnd Hrun k).
    destruct (N.eqb_spec k product) as [->|Hne].
    + rewrite (CartFacts.lookup_None _ _ Hfresh), lookup_insert_eq, Hp. done.
    + rewrite lookup_insert_ne by done. done.
Qed.

Section Checkout.
Variable now : time_t.
Variable w : World.

Local Abbreviation h := (products w).
Local Abbreviation entries := (cart w).
Local Abbreviation units := (shipment_units (products w) (cart w)).
Local Abbreviation total := (cart_total (products w) (cart w)).

Lemma account_all_units :
  unit_weights h (shippables (account_all h entries no_totals)) = Some units.
Proof.
  rewrite shippables_account_all. simpl. apply unit_weights_line_pointers.
Qed.

Lemma units_nil_shippables :
  units = [] <-> shippables (account_all h entries no_totals) = [].
Proof.
  pose proof account_all_units as Hu. split; intros Hnil.
  - destruct (shippables _) as [|item rest]; [done|].
    simpl in Hu. rewrite Hnil in Hu.
    destruct (h !! item) as [p|]; [|done]. simpl in Hu.
    destruct (getWeight p); [|done]. simpl in Hu.
    by destruct (unit_weights h rest).
  - rewrite Hnil in Hu. simpl in Hu. congruence.
Qed.

(** When every entry passes and the balance covers the total, the call
    completes: this is all it writes and all it changes. *)
Lemma checkout_completes :
  entries <> [] ->
  Forall (entry_ok now h) entries ->
  Double.ltb (balance (customer w)) total = false ->
  exists cs products',
    reduce_stock h entries = Some products' /\
    checkout now w
    = Some (Completed (notice_for units cs)
              (mkReceipt (map (receipt_line h) entries)
                 (Double.to_int (cart_subtotal h entries))
                 (Double.to_int (cart_shipping h entries))
                 (Double.to_int total)
                 (Double.to_int (Double.sub (balance (customer w)) total))),
            mkWorld products'
              (mkCustomer (customer_name (customer w))
                          (Double.sub (balance (customer w)) total))
              []).
Proof.
  intros Hne Hok Hbal.
  assert (Hlive : Forall (fun e => is_Some (h !! e.1)) entries).
  { eapply Forall_impl; [exact Hok|]. intros e. apply entry_ok_live. }
  destruct (reduce_stock_total entries h Hlive) as [products' Hred].
  pose proof (units_ok_account_all h entries no_totals (Forall_nil_2 _)) as Hunits.
  pose proof account_all_units as Hws.
  pose proof units_nil_shippables as Hnil.
  pose proof (subtotal_account_all now h entries no_totals Hok) as Hsub.
  assert (Hship : exists cs,
    match shippables (account_all h entries no_totals) with
    | [] => Some None
    | _ :: _ => ShippingService.ship h
                  (shippables (account_all h entries no_totals))
                  (nameToCount (account_all h entries no_totals))
    end = Some (notice_for units cs)).
  { unfold notice_for.
    destruct (shippables (account_all h entries no_totals)) as [|item rest].
    - exists []. by rewrite (proj2 Hnil eq_refl).
    - destruct (count_lines_total h _ _ ∅ Hunits) as [cs Hcs].
      exists cs. unfold ShippingService.ship.
      rewrite Hcs, weight_lines_unit_weights, Hws. simpl.
      destruct units as [|u us]; [|done].
      discriminate (proj1 Hnil eq_refl). }
  destruct Hship as [cs Hship]. exists cs, products'. split; [exact Hred|].
  unfold checkout, Cart.getItems.
  assert (Cart.isEmpty entries = false) as -> by (by destruct entries).
  rewrite (check_entries_pass now h entries _ Hok).
  cbn [mbind option_bind].
  rewrite sum_weights_unit_weights, Hws. cbn [mbind option_bind].
  rewrite Hsub. change (subtotal no_totals) with Double.zero.
  unfold cart_total, cart_shipping, cart_subtotal, total_weight in *.
  unfold getBalance at 1.
  rewrite Hbal, Hship. cbn [mbind option_bind].
  rewrite (receipt_lines_map h entries Hlive). cbn [mbind option_bind].
  rewrite Hred. reflexivity.
Qed.

(** A call that completes went through every test. *)
Lemma checkout_completed_inv notice receipt w' :
  checkout now w = Some (Completed notice receipt, w') ->
  entries <> [] /\ Forall (entry_ok now h) entries
  /\ Double.ltb (balance (customer w)) total = false.
Proof.
  unfold checkout, Cart.getItems. intros Hrun.
  destruct (Cart.isEmpty entries) eqn:Hemp; [done|].
  destruct (check_entries now h entries no_totals) as [[e|acc]|] eqn:Hloop;
    cbn [mbind option_bind] in Hrun; [done| |done].
  apply check_entries_inr in Hloop as [Hok ->].
  split; [by destruct entries|]. split; [exact Hok|].
  rewrite sum_weights_unit_weights, account_all_units in Hrun.
  cbn [mbind option_bind] in Hrun.
  rewrite (subtotal_account_all now h entries no_totals Hok) in Hrun.
  change (subtotal no_totals) with Double.zero in Hrun.
  unfold cart_total, cart_shipping, cart_subtotal, total_weight.
  unfold getBalance in Hrun at 1.
  by destruct (Double.ltb _ _).
Qed.

(** A call that gives up has changed nothing. *)
Lemma checkout_failed_inv e w' :
  checkout now w = Some (Failed e, w') -> w' = w.
Proof.
  unfold checkout. intros Hrun.
  destruct (Cart.isEmpty (cart w)); [congruence|].
  destruct (check_entries now (products w) (Cart.getItems (cart w)) no_totals)
    as [[e1|acc]|]; simpl in Hrun; [congruence| |done].
  destruct (sum_weights (products w) (shippables acc) Double.zero) as [tw|];
    simpl in Hrun; [|done].
  destruct (Double.ltb _ _); [congruence|].
  destruct (match shippables acc with [] => _ | _ => _ end) as [n|];
    simpl in Hrun; [|done].
  destruct (receipt_lines _ _); simpl in Hrun; [|done].
  destruct (reduce_stock _ _); simpl in Hrun; [|done].
  congruence.
Qed.
End Checkout.

(** ** The order of the checks *)

Lemma first_failing_line_check now h entries acc e :
  first_failing_line now h entries = Some e ->
  check_entries now h entries acc = Some (inl e).
Proof.
  revert acc. induction entries as [|[product qty] rest IH]; intros acc Hfail.
  - discriminate.
  - simpl in *. destruct (h !! product) as [p|]; [|discriminate]. simpl.
    destruct (isExpired now p); [congruence|].
    destruct (getQuantity p <? qty); [congruence|]. by apply IH.
Qed.

Lemma checks_in_order_checkout now w e :
  checks_in_order now (products w) (cart w) = Some e ->
  checkout now w = Some (Failed e, w).
Proof.
  unfold checks_in_order, checkout, Cart.getItems.
  destruct (cart w) as [|e0 rest] eqn:Hcart; simpl Cart.isEmpty; cbv iota.
  - congruence.
  - intros Hfail.
    by rewrite (first_failing_line_check _ _ _ no_totals _ Hfail).
Qed.

Lemma checkout_stops_at now w pre product qty post p :
  cart w = pre ++ (product, qty) :: post ->
  Forall (entry_ok now (products w)) pre ->
  products w !! product = Some p ->
  (isExpired now p = true ->
   checkout now w = Some (Failed (ExpiredProduct (getName p)), w))
  /\ (isExpired now p = false -> getQuantity p < qty ->
      checkout now w = Some (Failed (InsufficientStock (getName p)), w)).
Proof.
  intros Hcart Hpre Hp.
  assert (Hrun : forall e,
    check_entries now (products w) [(product, qty)] (account_all (products w) pre no_totals)
    = Some (inl e) -> checkout now w = Some (Failed e, w)).
  { intros e He. unfold checkout, Cart.getItems. rewrite Hcart.
    assert (Cart.isEmpty (pre ++ (product, qty) :: post) = false) as ->
      by (by destruct pre).
    rewrite check_entries_app by exact Hpre.
    simpl in *. rewrite Hp in *. simpl in *.
    destruct (isExpired now p); [by simplify_eq|].
    destruct (getQuantity p <? qty); by simplify_eq. }
  split.
  - intros Hexp. apply Hrun. simpl. rewrite Hp. simpl. by rewrite Hexp.
  - intros Hexp Hq. apply Hrun. simpl. rewrite Hp. simpl. rewrite Hexp.
    by destruct (Z.ltb_spec (getQuantity p) qty); [|lia].
Qed.

(** ** The output of the sample runs *)

Example scenario_A_output :
  (checkout Demo.today Demo.scenario_A ≫= fun r => Print.outcome r.1)
  = Some ["** Shipment notice **";
          "2x Cheese";
          "400g";
          "400g";
          "Total package weight 0.8kg";
          "** Checkout receipt **";
          "2x Cheese      200";
          "1x ScratchCard 50";
          "----------------------";
          "Subtotal         250";
          "Shipping         24";
          "Amount           274";
          "Balance          726";
          "END.";
          ""].
Proof. vm_compute. reflexivity. Qed.

Example first_cart_output :
  (checkout Demo.today Demo.first_cart ≫= fun r => Print.outcome r.1)
  = Some ["** Shipment notice **";
          "2x Cheese";
          "1x Biscuits";
          "400g";
          "400g";
          "700g";
          "Total package weight 1.5kg";
          "** Checkout receipt **";
          "2x Cheese      200";
          "1x Biscuits    150";
          "----------------------";
          "Subtotal         350";
          "Shipping         45";
          "Amount           395";
          "Balance          605";
          "END.";
          ""].
Proof. vm_compute. reflexivity. Qed.

(** Scenario B: an expired product alone in the cart. *)
Example scenario_B_output :
  checkout Demo.later (mkWorld Demo.catalogue Demo.ali [(Demo.cheese_at, 1)])
  = Some (Failed (ExpiredProduct "Cheese"),
          mkWorld Demo.catalogue Demo.ali [(Demo.cheese_at, 1)]).
Proof. vm_compute. reflexivity. Qed.

(** Scenario D, the end of [main]: Cheese x1 is added, then
    [cheese->reduceQuantity(5)] empties the stock before the checkout. *)
Example scenario_D_output :
  Cart.add Demo.today Demo.catalogue Demo.cheese_at 1 Cart.empty
  = Some (Cart.Added, [(Demo.cheese_at, 1)])
  /\ (checkout Demo.today
        (mkWorld (<[Demo.cheese_at := reduceQuantity 5 Demo.cheese]> Demo.catalogue)
                 Demo.ali [(Demo.cheese_at, 1)])
        ≫= fun r => Print.outcome r.1)
     = Some ["Error: Not enough stock for Cheese"].
Proof. vm_compute. split; reflexivity. Qed.

Example empty_cart_output :
  (checkout Demo.today (mkWorld Demo.catalogue Demo.ali Cart.empty)
     ≫= fun r => Print.outcome r.1)
  = Some ["Error: Cart is empty"].
Proof. reflexivity. Qed.

(** * The claims *)

(** C1. A checkout that fails, whatever the reason ([EmptyCart],
    [ExpiredProduct], [InsufficientStock] or [InsufficientBalance]), leaves
    the stock of every product, the customer's balance and the contents of
    the cart exactly as they were before the call. *)
Theorem failed_checkout_changes_nothing now w e w' :
  checkout now w = Some (Failed e, w') ->
  products w' = products w /\ customer w' = customer w /\ cart w' = cart w.
Proof.
  intros Hrun. by rewrite (checkout_failed_inv now w e w' Hrun).
Qed.

Lemma failed_checkout_changes_nothing_witness :
  checkout Demo.today Demo.scenario_C
  = Some (Failed InsufficientBalance, Demo.scenario_C)
  /\ (products Demo.scenario_C = products Demo.scenario_C
      /\ customer Demo.scenario_C = customer Demo.scenario_C
      /\ cart Demo.scenario_C = cart Demo.scenario_C).
Proof.
  assert (H : checkout Demo.today Demo.scenario_C
              = Some (Failed InsufficientBalance, Demo.scenario_C))
    by (vm_compute; reflexivity).
  split; [exact H|].
  exact (failed_checkout_changes_nothing Demo.today Demo.scenario_C
           InsufficientBalance Demo.scenario_C H).
Defined.

(** C2. The shipping aggregation expands each shippable line of quantity
    [q] into [q] units carrying the product's weight, takes for
    [totalWeight] the sum of the unit weights and charges
    [ceil(totalWeight * 10) * 3]; with no shippable unit the weight and the
    fee are [0] and no notice is written. *)
Theorem shipping_aggregation now w :
  cart w <> [] ->
  Forall (entry_ok now (products w)) (cart w) ->
  let units := shipment_units (products w) (cart w) in
  let totalWeight := total_weight units in
  let fee := Double.mul (Double.ceil (Double.mul totalWeight (Double.of_Z 10)))
                        (Double.of_Z 3) in
  (exists acc,
      check_entries now (products w) (cart w) no_totals = Some (inr acc)
      /\ unit_weights (products w) (shippables acc) = Some units
      /\ sum_weights (products w) (shippables acc) Double.zero = Some totalWeight)
  /\ (units = [] -> totalWeight = Double.zero /\ fee = Double.zero)
  /\ (Double.ltb (balance (customer w))
        (Double.add (cart_subtotal (products w) (cart w)) fee) = false ->
      exists notice receipt w',
        checkout now w = Some (Completed notice receipt, w')
        /\ reported_shipping receipt = Double.to_int fee
        /\ balance (customer w')
           = Double.sub (balance (customer w))
               (Double.add (cart_subtotal (products w) (cart w)) fee)
        /\ (units = [] <-> notice = None)
        /\ (forall s, notice = Some s ->
              unit_grams s = map grams units
              /\ total_kg s = Double.fixed 1 totalWeight))
  /\ (forall x,
        Double.valid x = true -> Double.is_finite x = true ->
        exists c, Double.is_finite (Double.ceil x) = true
                  /\ (Double.value (Double.ceil x) == inject_Z c)%Q
                  /\ Double.ceiling_of x c).
Proof.
  intros Hne Hok units totalWeight fee.
  split; [|split; [|split; [|apply DoubleFacts.ceil_ceiling]]].
  - exists (account_all (products w) (cart w) no_totals).
    split; [by apply check_entries_pass|].
    pose proof (account_all_units w) as Hu. split; [exact Hu|].
    rewrite sum_weights_unit_weights, Hu. reflexivity.
  - intros Hnil. subst totalWeight fee. rewrite Hnil. split; reflexivity.
  - intros Hbal.
    destruct (checkout_completes now w Hne Hok Hbal) as (cs & products' & _ & Hrun).
    eexists _, _, _. split; [exact Hrun|]. simpl.
    split; [reflexivity|]. split; [reflexivity|]. fold units. split.
    + unfold notice_for. destruct units; split; intros; done.
    + unfold notice_for. intros s. destruct units; intros Hs; [done|].
      injection Hs as <-. split; reflexivity.
Qed.

Lemma shipping_aggregation_witness :
  let units := shipment_units (products Demo.scenario_A) (cart Demo.scenario_A) in
  units = [Double.lit 4 1; Double.lit 4 1]
  /\ total_weight units = Double.lit 8 1
  /\ shipping_fee (total_weight units) = Double.of_Z 24
  /\ exists notice receipt w',
       checkout Demo.today Demo.scenario_A = Some (Completed notice receipt, w')
       /\ reported_shipping receipt = Some 24
       /\ (units = [] <-> notice = None).
Proof.
  assert (Hne : cart Demo.scenario_A <> []) by discriminate.
  assert (Hok : Forall (entry_ok Demo.today (products Demo.scenario_A))
                       (cart Demo.scenario_A)).
  { all_pass. }
  destruct (shipping_aggregation Demo.today Demo.scenario_A Hne Hok)
    as (_ & _ & Hrun & _).
  destruct Hrun as (notice & receipt & w' & Hrun & Hfee & _ & Hnotice & _);
    [vm_compute; reflexivity|].
  split; [vm_compute; reflexivity|]. split; [vm_compute; reflexivity|].
  split; [vm_compute; reflexivity|].
  exists notice, receipt, w'. split; [exact Hrun|]. split; [|exact Hnotice].
  rewrite Hfee. vm_compute. reflexivity.
Defined.

(** C5. When every validation and the balance check pass, checkout deducts
    [total = subtotal + shippingFee] from the balance, takes from the stock
    of each line's product the quantity of the line, and clears the cart.
    (Scenario A, Cheese x2 and ScratchCard x1: subtotal 250, fee 24, total
    274, balance down by 274, Cheese stock 5 to 3, is the witness below.) *)
Theorem checkout_commits now w :
  cart w <> [] ->
  ascending (cart w) ->
  Forall (entry_ok now (products w)) (cart w) ->
  let subtotal := cart_subtotal (products w) (cart w) in
  let shippingFee := cart_shipping (products w) (cart w) in
  let total := Double.add subtotal shippingFee in
  Double.ltb (balance (customer w)) total = false ->
  exists notice receipt w',
    checkout now w = Some (Completed notice receipt, w')
    /\ balance (customer w') = Double.sub (balance (customer w)) total
    /\ (forall product,
          products w' !! product
          = match Cart.lookup product (cart w) with
            | Some qty => reduceQuantity qty <$> products w !! product
            | None => products w !! product
            end)
    /\ (forall product qty p,
          Cart.lookup product (cart w) = Some qty ->
          products w !! product = Some p ->
          0 <= qty -> Int.in_range (getQuantity p) ->
          exists p', products w' !! product = Some p'
                     /\ getQuantity p' = getQuantity p - qty)
    /\ cart w' = [].
Proof.
  intros Hne Hasc Hok subtotal shippingFee total Hbal.
  destruct (checkout_completes now w Hne Hok Hbal) as (cs & products' & Hred & Hrun).
  pose proof (reduce_stock_lookup _ _ _ (CartFacts.ascending_NoDup _ Hasc) Hred)
    as Hstock.
  eexists _, _, _. split; [exact Hrun|]. simpl.
  split; [reflexivity|]. split; [exact Hstock|]. split; [|reflexivity].
  intros product qty p Hq Hp Hpos Hrange.
  exists (reduceQuantity qty p). rewrite Hstock, Hq, Hp. split; [done|].
  rewrite getQuantity_reduceQuantity. unfold Int.sub.
  apply IntFacts.wrap_in_range.
  apply CartFacts.lookup_Some in Hq.
  rewrite Forall_forall in Hok. destruct (Hok _ Hq) as (p0 & Hp0 & _ & Hle).
  simpl in *. assert (p0 = p) as -> by congruence.
  unfold Int.in_range, Int.INT_MIN, Int.INT_MAX in *. lia.
Qed.

Lemma checkout_commits_witness :
  cart_subtotal (products Demo.scenario_A) (cart Demo.scenario_A) = Double.of_Z 250
  /\ cart_shipping (products Demo.scenario_A) (cart Demo.scenario_A) = Double.of_Z 24
  /\ cart_total (products Demo.scenario_A) (cart Demo.scenario_A) = Double.of_Z 274
  /\ exists notice receipt w',
       checkout Demo.today Demo.scenario_A = Some (Completed notice receipt, w')
       /\ balance (customer w') = Double.sub (Double.of_Z 1000) (Double.of_Z 274)
       /\ getQuantity <$> products Demo.scenario_A !! Demo.cheese_at = Some 5
       /\ getQuantity <$> products w' !! Demo.cheese_at = Some 3
       /\ getQuantity <$> products w' !! Demo.scratchCard_at = Some 19
       /\ cart w' = [].
Proof.
  split; [vm_compute; reflexivity|]. split; [vm_compute; reflexivity|].
  split; [vm_compute; reflexivity|].
  assert (Hne : cart Demo.scenario_A <> []) by discriminate.
  assert (Hasc : ascending (cart Demo.scenario_A)).
  { unfold ascending. vm_compute. repeat constructor. }
  assert (Hok : Forall (entry_ok Demo.today (products Demo.scenario_A))
                       (cart Demo.scenario_A)) by all_pass.
  destruct (checkout_commits Demo.today Demo.scenario_A Hne Hasc Hok)
    as (notice & receipt & w' & Hrun & Hbal & Hstock & _ & Hcart);
    [vm_compute; reflexivity|].
  exists notice, receipt, w'. split; [exact Hrun|].
  split; [rewrite Hbal; vm_compute; reflexivity|].
  split; [vm_compute; reflexivity|].
  rewrite !Hstock. split; [vm_compute; reflexivity|].
  split; [vm_compute; reflexivity | exact Hcart].
Defined.

(** C8. Every amount on the receipt: each line's [price * quantity], the
    subtotal, the shipping, the total and the balance after checkout, is
    the [static_cast<int>] of the computed amount, that is its integer part
    with the fraction cut off toward zero, not rounded. (33.33 x 3 = 99.99
    is reported as 99: the witness below.) *)
Theorem reported_amounts_truncated now w :
  cart w <> [] ->
  Forall (entry_ok now (products w)) (cart w) ->
  Double.ltb (balance (customer w)) (cart_total (products w) (cart w)) = false ->
  exists notice receipt w',
    checkout now w = Some (Completed notice receipt, w')
    /\ item_lines receipt
       = map (fun e => (e.2, from_option getName "" (products w !! e.1),
                        Double.to_int (line_amount (products w) e))) (cart w)
    /\ reported_subtotal receipt = Double.to_int (cart_subtotal (products w) (cart w))
    /\ reported_shipping receipt = Double.to_int (cart_shipping (products w) (cart w))
    /\ reported_amount receipt = Double.to_int (cart_total (products w) (cart w))
    /\ balance (customer w')
       = Double.sub (balance (customer w)) (cart_total (products w) (cart w))
    /\ reported_balance receipt = Double.to_int (balance (customer w'))
    /\ (forall x z, Double.to_int x = Some z ->
                    Double.truncation_of x z /\ Int.in_range z).
Proof.
  intros Hne Hok Hbal.
  destruct (checkout_completes now w Hne Hok Hbal) as (cs & products' & _ & Hrun).
  eexists _, _, _. split; [exact Hrun|]. simpl.
  repeat (split; [reflexivity|]). apply DoubleFacts.to_int_truncation.
Qed.

Lemma reported_amounts_truncated_witness :
  line_amount (products Demo.cents) (Demo.snack_at, 3)
  = Double.mul (Double.lit 3333 2) (Double.of_Z 3)
  /\ exists notice receipt w',
       checkout Demo.today Demo.cents = Some (Completed notice receipt, w')
       /\ item_lines receipt = [(3, "Snack", Some 99)]
       /\ reported_subtotal receipt = Some 99
       /\ reported_shipping receipt = Some 0
       /\ reported_amount receipt = Some 99
       /\ reported_balance receipt = Some 900
       /\ Double.truncation_of (Double.mul (Double.lit 3333 2) (Double.of_Z 3)) 99.
Proof.
  split; [vm_compute; reflexivity|].
  assert (Hne : cart Demo.cents <> []) by discriminate.
  assert (Hok : Forall (entry_ok Demo.today (products Demo.cents)) (cart Demo.cents))
    by all_pass.
  destruct (reported_amounts_truncated Demo.today Demo.cents Hne Hok)
    as (notice & receipt & w' & Hrun & Hlines & Hsub & Hship & Hamt & Hw' & Hbal & Htr);
    [vm_compute; reflexivity|].
  exists notice, receipt, w'. split; [exact Hrun|].
  split; [rewrite Hlines; vm_compute; reflexivity|].
  split; [rewrite Hsub; vm_compute; reflexivity|].
  split; [rewrite Hship; vm_compute; reflexivity|].
  split; [rewrite Hamt; vm_compute; reflexivity|].
  split; [rewrite Hbal, Hw'; vm_compute; reflexivity|].
  apply Htr. vm_compute. reflexivity.
Defined.

(** C10. On a successful checkout the amount taken from the balance is the
    exact [total = subtotal + shippingFee], fraction included; only the
    figures written on the receipt are truncated, so the balance kept can
    exceed the balance shown by a fraction. *)
Theorem balance_deducted_exactly :
  (forall now w,
      cart w <> [] ->
      Forall (entry_ok now (products w)) (cart w) ->
      let total := Double.add (cart_subtotal (products w) (cart w))
                              (cart_shipping (products w) (cart w)) in
      Double.ltb (balance (customer w)) total = false ->
      exists notice receipt w',
        checkout now w = Some (Completed notice receipt, w')
        /\ balance (customer w') = Double.sub (balance (customer w)) total
        /\ reported_amount receipt = Double.to_int total
        /\ reported_balance receipt = Double.to_int (balance (customer w')))
  /\ (exists now w notice receipt w' shown,
        checkout now w = Some (Completed notice receipt, w')
        /\ reported_balance receipt = Some shown
        /\ (inject_Z shown < Double.value (balance (customer w')))%Q).
Proof.
  split.
  - intros now w Hne Hok total Hbal.
    destruct (checkout_completes now w Hne Hok Hbal) as (cs & products' & _ & Hrun).
    eexists _, _, _. split; [exact Hrun|]. simpl. repeat split.
  - assert (Hne : cart Demo.cents <> []) by discriminate.
    assert (Hok : Forall (entry_ok Demo.today (products Demo.cents)) (cart Demo.cents))
      by all_pass.
    destruct (checkout_completes Demo.today Demo.cents Hne Hok)
      as (cs & products' & _ & Hrun); [vm_compute; reflexivity|].
    eexists Demo.today, Demo.cents, _, _, _, 900.
    split; [exact Hrun|]. simpl. split; vm_compute; reflexivity.
Qed.

Lemma balance_deducted_exactly_witness :
  exists notice receipt w',
    checkout Demo.today Demo.cents = Some (Completed notice receipt, w')
    /\ balance (customer w')
       = Double.sub (Double.of_Z 1000) (Double.mul (Double.lit 3333 2) (Double.of_Z 3))
    /\ reported_amount receipt = Some 99
    /\ reported_balance receipt = Some 900.
Proof.
  assert (Hne : cart Demo.cents <> []) by discriminate.
  assert (Hok : Forall (entry_ok Demo.today (products Demo.cents)) (cart Demo.cents))
    by all_pass.
  destruct (proj1 balance_deducted_exactly Demo.today Demo.cents Hne Hok)
    as (notice & receipt & w' & Hrun & Hw' & Hamt & Hbal);
    [vm_compute; reflexivity|].
  exists notice, receipt, w'. split; [exact Hrun|].
  split; [rewrite Hw'; vm_compute; reflexivity|].
  split; [rewrite Hamt; vm_compute; reflexivity|].
  rewrite Hbal, Hw'. vm_compute. reflexivity.
Defined.

(** C3, as stated: the checks run over the lines in the order the products
    were first added. Biscuits then Cheese are added while both are fresh;
    once both are expired the claim names Biscuits, the line added first,
    and [checkout] names Cheese, the entry with the lower address. *)
Lemma checks_in_insertion_order_counterexample :
  Cart.add_all Demo.today Demo.catalogue Demo.biscuits_then_cheese Cart.empty
  = Some ([Cart.Added; Cart.Added], Demo.cheese_and_biscuits)
  /\ checks_in_order Demo.later Demo.catalogue
       (lines_as_inserted Demo.biscuits_then_cheese Demo.cheese_and_biscuits)
     = Some (ExpiredProduct "Biscuits")
  /\ checkout Demo.later (mkWorld Demo.catalogue Demo.ali Demo.cheese_and_biscuits)
     = Some (Failed (ExpiredProduct "Cheese"),
             mkWorld Demo.catalogue Demo.ali Demo.cheese_and_biscuits)
  /\ checkout Demo.later (mkWorld Demo.catalogue Demo.ali Demo.cheese_and_biscuits)
     <> Some (Failed (ExpiredProduct "Biscuits"),
              mkWorld Demo.catalogue Demo.ali Demo.cheese_and_biscuits).
Proof. vm_compute. repeat split. discriminate. Qed.

(** C3, amended: checkout first tests for the empty cart, then goes through
    the entries in the order the cart holds them, ascending product
    address, testing each entry for expiry and then for stock; it stops at
    the first entry that fails either test with [ExpiredProduct(name)] or
    [InsufficientStock(name)], and nothing has been written by then. *)
Theorem checks_in_entry_order now w :
  (cart w = [] -> checkout now w = Some (Failed EmptyCart, w))
  /\ (forall pre product qty post p,
        cart w = pre ++ (product, qty) :: post ->
        Forall (entry_ok now (products w)) pre ->
        products w !! product = Some p ->
        (isExpired now p = true ->
         checkout now w = Some (Failed (ExpiredProduct (getName p)), w))
        /\ (isExpired now p = false -> getQuantity p < qty ->
            checkout now w = Some (Failed (InsufficientStock (getName p)), w)))
  /\ (forall now0 calls rs,
        Cart.add_all now0 (products w) calls Cart.empty = Some (rs, cart w) ->
        ascending (cart w)).
Proof.
  split; [|split].
  - intros Hcart. unfold checkout. by rewrite Hcart.
  - intros pre product qty post p. apply checkout_stops_at.
  - intros now0 calls rs Hadd.
    eapply CartFacts.add_all_ascending; [exact Hadd | constructor].
Qed.

Lemma checks_in_entry_order_witness :
  checkout Demo.later (mkWorld Demo.catalogue Demo.ali Demo.cheese_and_biscuits)
  = Some (Failed (ExpiredProduct "Cheese"),
          mkWorld Demo.catalogue Demo.ali Demo.cheese_and_biscuits)
  /\ ascending Demo.cheese_and_biscuits.
Proof.
  pose proof (checks_in_entry_order Demo.later
                (mkWorld Demo.catalogue Demo.ali Demo.cheese_and_biscuits))
    as (_ & Hstop & Hasc).
  split.
  - apply (Hstop [] Demo.cheese_at 2 [(Demo.biscuits_at, 1)] Demo.cheese);
      [reflexivity | constructor | vm_compute; reflexivity | reflexivity].
  - apply (Hasc Demo.today Demo.biscuits_then_cheese [Cart.Added; Cart.Added]).
    vm_compute. reflexivity.
Defined.

(** C6, as stated: the entries of the cart, and with them the lines of the
    receipt, come in the order the products were first added. Biscuits is
    added before Cheese; the cart and the receipt list Cheese first. *)
Lemma entries_in_insertion_order_counterexample :
  Cart.add_all Demo.today Demo.catalogue Demo.biscuits_then_cheese Cart.empty
  = Some ([Cart.Added; Cart.Added], Demo.cheese_and_biscuits)
  /\ insertion_order Demo.biscuits_then_cheese [] = [Demo.biscuits_at; Demo.cheese_at]
  /\ (Cart.getItems Demo.cheese_and_biscuits).*1 = [Demo.cheese_at; Demo.biscuits_at]
  /\ (Cart.getItems Demo.cheese_and_biscuits).*1
     <> insertion_order Demo.biscuits_then_cheese []
  /\ exists notice receipt w',
       checkout Demo.today (mkWorld Demo.catalogue Demo.ali Demo.cheese_and_biscuits)
       = Some (Completed notice receipt, w')
       /\ (fun l => l.1.2) <$> item_lines receipt = ["Cheese"; "Biscuits"].
Proof.
  split; [vm_compute; reflexivity|]. split; [vm_compute; reflexivity|].
  split; [reflexivity|]. split; [vm_compute; discriminate|].
  eexists _, _, _. split; vm_compute; reflexivity.
Qed.

(** C6, amended: the entries of a cart built by [add] calls come in
    ascending order of product address (the key order of [std::map]),
    whatever the order of the calls; the lines of the receipt and the
    per-line processing of checkout follow the entries in that order. *)
Theorem entries_in_key_order now0 h calls rs items :
  Cart.add_all now0 h calls Cart.empty = Some (rs, items) ->
  ascending (Cart.getItems items)
  /\ (forall now c,
        items <> [] ->
        Forall (entry_ok now h) items ->
        Double.ltb (balance c) (cart_total h items) = false ->
        exists notice receipt w',
          checkout now (mkWorld h c items) = Some (Completed notice receipt, w')
          /\ item_lines receipt = map (receipt_line h) (Cart.getItems items))
  /\ (forall now c e,
        checks_in_order now h (Cart.getItems items) = Some e ->
        checkout now (mkWorld h c items) = Some (Failed e, mkWorld h c items)).
Proof.
  intros Hadd. split; [|split].
  - eapply CartFacts.add_all_ascending; [exact Hadd | constructor].
  - intros now c Hne Hok Hbal.
    destruct (checkout_completes now (mkWorld h c items) Hne Hok Hbal)
      as (cs & products' & _ & Hrun).
    eexists _, _, _. split; [exact Hrun | reflexivity].
  - intros now c e. apply (checks_in_order_checkout now (mkWorld h c items)).
Qed.

Lemma entries_in_key_order_witness :
  ascending Demo.cheese_and_biscuits
  /\ exists notice receipt w',
       checkout Demo.today (mkWorld Demo.catalogue Demo.ali Demo.cheese_and_biscuits)
       = Some (Completed notice receipt, w')
       /\ item_lines receipt = [(2, "Cheese", Some 200); (1, "Biscuits", Some 150)].
Proof.
  destruct (entries_in_key_order Demo.today Demo.catalogue
              Demo.biscuits_then_cheese [Cart.Added; Cart.Added]
              Demo.cheese_and_biscuits) as (Hasc & Hrun & _);
    [vm_compute; reflexivity|].
  split; [exact Hasc|].
  destruct (Hrun Demo.today Demo.ali) as (notice & receipt & w' & Hout & Hlines);
    [discriminate | all_pass | vm_compute; reflexivity|].
  exists notice, receipt, w'. split; [exact Hout|].
  rewrite Hlines. vm_compute. reflexivity.
Defined.

(** C4, as stated: [add(p, q)] with [q] above the stock of [p] always fails
    with [InsufficientStock]. Cheese has 5 in stock and is expired: asking
    for 10 fails with [ExpiredProduct]. *)
Lemma add_beyond_stock_counterexample :
  getQuantity <$> Demo.catalogue !! Demo.cheese_at = Some 5
  /\ Cart.add Demo.later Demo.catalogue Demo.cheese_at 10 Cart.empty
     = Some (Cart.Thrown (Cart.ExpiredProduct "Cheese"), Cart.empty)
  /\ Cart.add Demo.later Demo.catalogue Demo.cheese_at 10 Cart.empty
     <> Some (Cart.Thrown (Cart.InsufficientStock "Cheese"), Cart.empty).
Proof. vm_compute. repeat split. discriminate. Qed.

(** C4, amended: [add(p, q)] tests in this order and fails at the first
    test that applies: [InvalidQuantity] when [q <= 0], else
    [ExpiredProduct] when [p] is expired, else [InsufficientStock] when [q]
    exceeds the stock of [p]; so it always fails when [q] exceeds the
    stock. A failure leaves the cart unchanged. On success [q] is added to
    the entry of [p], created at 0 when absent, and no other entry changes.
    The call only reads the product: it returns a cart and nothing else. *)
Theorem add_outcomes now h product p quantity items :
  h !! product = Some p ->
  exists r items',
    Cart.add now h product quantity items = Some (r, items')
    /\ (quantity <= 0 -> r = Cart.Thrown Cart.InvalidQuantity)
    /\ (0 < quantity -> isExpired now p = true ->
        r = Cart.Thrown (Cart.ExpiredProduct (getName p)))
    /\ (0 < quantity -> isExpired now p = false -> getQuantity p < quantity ->
        r = Cart.Thrown (Cart.InsufficientStock (getName p)))
    /\ (getQuantity p < quantity -> exists e, r = Cart.Thrown e)
    /\ (forall e, r = Cart.Thrown e -> items' = items)
    /\ (r = Cart.Added ->
        0 < quantity /\ isExpired now p = false /\ quantity <= getQuantity p
        /\ (ascending items ->
            Cart.lookup product items'
            = Some (Int.add (default 0 (Cart.lookup product items)) quantity))
        /\ (forall k, k <> product -> Cart.lookup k items' = Cart.lookup k items)).
Proof.
  intros Hp. unfold Cart.add. rewrite Hp. simpl.
  destruct (Z.leb_spec quantity 0) as [Hq|Hq].
  { eexists _, _. split; [reflexivity|].
    repeat split; intros; try done; try lia; eauto. }
  destruct (isExpired now p) eqn:Hexp.
  { eexists _, _. split; [reflexivity|].
    repeat split; intros; try done; try lia; eauto. }
  destruct (Z.ltb_spec (getQuantity p) quantity) as [Hs|Hs].
  { eexists _, _. split; [reflexivity|].
    repeat split; intros; try done; try lia; eauto. }
  eexists _, _. split; [reflexivity|].
  split; [intros; lia|]. split; [done|]. split; [intros; lia|].
  split; [intros; lia|]. split; [done|]. intros _.
  split; [done|]. split; [done|]. split; [done|]. split.
  - intros Hasc. by apply CartFacts.lookup_update_eq.
  - intros k Hk. by apply CartFacts.lookup_update_ne.
Qed.

Lemma add_outcomes_witness :
  exists r items',
    Cart.add Demo.today Demo.catalogue Demo.cheese_at 2 [(Demo.cheese_at, 1)]
    = Some (r, items')
    /\ r = Cart.Added
    /\ Cart.lookup Demo.cheese_at items' = Some 3.
Proof.
  destruct (add_outcomes Demo.today Demo.catalogue Demo.cheese_at Demo.cheese 2
              [(Demo.cheese_at, 1)]) as (r & items' & Hadd & _ & _ & _ & _ & _ & Hok);
    [vm_compute; reflexivity|].
  assert (Hr : r = Cart.Added).
  { revert Hadd. vm_compute. intros Hadd. by injection Hadd as <- _. }
  exists r, items'. split; [exact Hadd|]. split; [exact Hr|].
  destruct (Hok Hr) as (_ & _ & _ & Hnew & _). rewrite Hnew; [reflexivity|].
  unfold ascending. vm_compute. repeat constructor.
Defined.

(** C7. Two calls [add(cheese, 3)] on the same cart both succeed against a
    stock of 5, and leave an entry of 6: the accumulated quantity exceeds
    the stock, which no call has changed. (The claim holds for one call per
    product only.) *)
Theorem add_twice_exceeds_stock :
  getQuantity <$> Demo.catalogue !! Demo.cheese_at = Some 5
  /\ Cart.add_all Demo.today Demo.catalogue
       [(Demo.cheese_at, 3); (Demo.cheese_at, 3)] Cart.empty
     = Some ([Cart.Added; Cart.Added], [(Demo.cheese_at, 6)])
  /\ checkout Demo.today (mkWorld Demo.catalogue Demo.ali [(Demo.cheese_at, 6)])
     = Some (Failed (InsufficientStock "Cheese"),
             mkWorld Demo.catalogue Demo.ali [(Demo.cheese_at, 6)]).
Proof. vm_compute. repeat split. Qed.

(** C9, as stated: a unit's weight is shown as [w * 1000] truncated to whole
    grams. A unit of 0.4006 kg is shown as 401 g; truncated it would be
    400 g. *)
Lemma unit_grams_truncated_counterexample :
  ShippingService.ship Demo.catalogue [Demo.parcel_at] {["Parcel" := 1]}
  = Some (Some (mkShipment [(1, "Parcel")]
                  [Double.FixedDigits false 401 0]
                  (Double.FixedDigits false 4 1)))
  /\ getWeight Demo.parcel = Some (Double.lit 4006 4)
  /\ Double.fixed_truncated 0 (Double.mul (Double.lit 4006 4) (Double.of_Z 1000))
     = Double.FixedDigits false 400 0
  /\ grams (Double.lit 4006 4)
     <> Double.fixed_truncated 0 (Double.mul (Double.lit 4006 4) (Double.of_Z 1000)).
Proof. vm_compute. repeat split. discriminate. Qed.

(** C9, amended: for every unit of weight [w] kg in the manifest the line
    shows [w * 1000] rounded to the nearest whole gram, and the total line
    shows the sum of the unit weights in kilograms rounded to one decimal
    place. *)
Theorem manifest_weights h items nameToCount ws cs :
  items <> [] ->
  unit_weights h items = Some ws ->
  ShippingService.count_lines h items nameToCount ∅ = Some cs ->
  ShippingService.ship h items nameToCount
  = Some (Some (mkShipment cs
                  (map (fun w => Double.fixed 0 (Double.mul w (Double.of_Z 1000))) ws)
                  (Double.fixed 1 (foldl Double.add Double.zero ws))))
  /\ (forall places x,
        Double.is_finite x = true ->
        exists s n, Double.fixed places x = Double.FixedDigits s n places
                    /\ Double.nearest_numeral places x n).
Proof.
  intros Hne Hws Hcs. split; [|apply DoubleFacts.fixed_nearest].
  unfold ShippingService.ship. destruct items as [|item rest]; [done|].
  rewrite Hcs, weight_lines_unit_weights, Hws. reflexivity.
Qed.

Lemma manifest_weights_witness :
  ShippingService.ship Demo.catalogue [Demo.cheese_at; Demo.cheese_at] {["Cheese" := 2]}
  = Some (Some (mkShipment [(2, "Cheese")]
                  [Double.FixedDigits false 400 0; Double.FixedDigits false 400 0]
                  (Double.FixedDigits false 8 1)))
  /\ exists s n,
       Double.fixed 0 (Double.mul (Double.lit 4006 4) (Double.of_Z 1000))
       = Double.FixedDigits s n 0
       /\ n = 401
       /\ Double.nearest_numeral 0 (Double.mul (Double.lit 4006 4) (Double.of_Z 1000)) n.
Proof.
  destruct (manifest_weights Demo.catalogue [Demo.cheese_at; Demo.cheese_at]
              {["Cheese" := 2]} [Double.lit 4 1; Double.lit 4 1] [(2, "Cheese")])
    as [Hship Hnear]; [discriminate | vm_compute; reflexivity | vm_compute; reflexivity|].
  split; [rewrite Hship; vm_compute; reflexivity|].
  destruct (Hnear 0%nat (Double.mul (Double.lit 4006 4) (Double.of_Z 1000)))
    as (s & n & Hfix & Hn); [reflexivity|].
  exists s, n. split; [exact Hfix|]. split; [|exact Hn].
  revert Hfix. vm_compute. intros Hfix. by injection Hfix as _ <-.
Defined.

(** * Further properties of the code *)

(** ** Arithmetic of [int] *)

Lemma wrap_add_idemp a b : Int.wrap (Int.wrap a + b) = Int.wrap (a + b).
Proof.
  unfold Int.wrap.
  replace ((a + 2 ^ 31) mod 2 ^ 32 - 2 ^ 31 + b + 2 ^ 31)
    with ((a + 2 ^ 31) mod 2 ^ 32 + b) by lia.
  rewrite Z.add_mod_idemp_l by lia. f_equal. f_equal. lia.
Qed.

Lemma wrap_sub_idemp a b : Int.wrap (Int.wrap a - b) = Int.wrap (a - b).
Proof. apply (wrap_add_idemp a (- b)). Qed.

Lemma wrap_sub_idemp_r a b : Int.wrap (a - Int.wrap b) = Int.wrap (a - b).
Proof.
  unfold Int.wrap.
  replace (a - ((b + 2 ^ 31) mod 2 ^ 32 - 2 ^ 31) + 2 ^ 31)
    with (a + 2 ^ 32 - (b + 2 ^ 31) mod 2 ^ 32) by lia.
  rewrite Zminus_mod_idemp_r. f_equal. f_equal. lia.
Qed.

(** X1. [reduceQuantity] subtracts with no guard: two reductions in a row
    amount to one reduction by the ([int]) sum, and a reduction by more
    than the stock leaves a negative stock. *)
Theorem reduceQuantity_unguarded p a b :
  reduceQuantity a (reduceQuantity b p) = reduceQuantity (Int.add b a) p
  /\ (Int.in_range (getQuantity p) -> Int.in_range a ->
      0 <= getQuantity p < a ->
      getQuantity (reduceQuantity a p) = getQuantity p - a
      /\ getQuantity (reduceQuantity a p) < 0).
Proof.
  split.
  - assert (Hq : Int.sub (Int.sub (getQuantity p) b) a
                 = Int.sub (getQuantity p) (Int.add b a)).
    { unfold Int.sub, Int.add. rewrite wrap_sub_idemp, wrap_sub_idemp_r.
      f_equal. ring. }
    destruct p as [[n pr q]|[n pr q] d|[n pr q] wt|[n pr q] d wt];
      unfold getQuantity in Hq; simpl in *; by rewrite Hq.
  - intros Hp Ha Hlt. rewrite getQuantity_reduceQuantity. unfold Int.sub.
    rewrite IntFacts.wrap_in_range;
      unfold Int.in_range, Int.INT_MIN, Int.INT_MAX in *; lia.
Qed.

Lemma reduceQuantity_unguarded_witness :
  getQuantity (reduceQuantity 5 (reduceQuantity 2 Demo.cheese)) = 3 - 5
  /\ getQuantity (reduceQuantity 5 (reduceQuantity 2 Demo.cheese)) < 0.
Proof.
  apply (proj2 (reduceQuantity_unguarded (reduceQuantity 2 Demo.cheese) 5 0));
    vm_compute; split; congruence.
Defined.

(** ** How a checkout ends *)

Lemma check_entries_inl now h entries acc e :
  check_entries now h entries acc = Some (inl e) ->
  exists n, e = ExpiredProduct n \/ e = InsufficientStock n.
Proof.
  revert acc. induction entries as [|[product qty] rest IH]; intros acc Hrun.
  - discriminate.
  - simpl in Hrun. destruct (h !! product) as [p|]; [|discriminate].
    simpl in Hrun. destruct (isExpired now p); [simplify_eq; eauto|].
    destruct (getQuantity p <? qty); [simplify_eq; eauto|]. eauto.
Qed.

Lemma check_entries_inl_not_ok now h entries acc e :
  check_entries now h entries acc = Some (inl e) ->
  ~ Forall (entry_ok now h) entries.
Proof.
  intros Hrun Hok. rewrite (check_entries_pass now h entries acc Hok) in Hrun.
  discriminate.
Qed.

Lemma check_entries_live now h entries acc :
  Forall (fun e => is_Some (h !! e.1)) entries ->
  is_Some (check_entries now h entries acc).
Proof.
  intros Hlive. revert acc.
  induction Hlive as [|[product qty] rest [p Hp] _ IH]; intros acc; [by eexists|].
  simpl in *. rewrite Hp. simpl.
  destruct (isExpired now p); [by eexists|].
  destruct (getQuantity p <? qty); [by eexists | apply IH].
Qed.

Lemma checkout_balance_refused now w :
  cart w <> [] ->
  Forall (entry_ok now (products w)) (cart w) ->
  Double.ltb (balance (customer w)) (cart_total (products w) (cart w)) = true ->
  checkout now w = Some (Failed InsufficientBalance, w).
Proof.
  intros Hne Hok Hbal. unfold checkout, Cart.getItems.
  assert (Cart.isEmpty (cart w) = false) as -> by (by destruct (cart w)).
  rewrite (check_entries_pass now _ _ _ Hok). cbn [mbind option_bind].
  rewrite sum_weights_unit_weights, account_all_units. cbn [mbind option_bind].
  rewrite (subtotal_account_all now _ _ no_totals Hok).
  change (subtotal no_totals) with Double.zero.
  unfold cart_total, cart_shipping, cart_subtotal, total_weight in Hbal.
  unfold getBalance. by rewrite Hbal.
Qed.

Lemma checkout_InsufficientBalance_inv now w w' :
  checkout now w = Some (Failed InsufficientBalance, w') ->
  cart w <> [] /\ Forall (entry_ok now (products w)) (cart w)
  /\ Double.ltb (balance (customer w)) (cart_total (products w) (cart w)) = true.
Proof.
  unfold checkout, Cart.getItems. intros Hrun.
  destruct (Cart.isEmpty (cart w)) eqn:Hemp; [discriminate|].
  destruct (check_entries now (products w) (cart w) no_totals) as [[e|acc]|] eqn:Hloop;
    cbn [mbind option_bind] in Hrun; [| |done].
  { apply check_entries_inl in Hloop as [n [-> | ->]]; discriminate. }
  apply check_entries_inr in Hloop as [Hok ->].
  split; [by destruct (cart w)|]. split; [exact Hok|].
  rewrite sum_weights_unit_weights, account_all_units in Hrun.
  cbn [mbind option_bind] in Hrun.
  rewrite (subtotal_account_all now _ _ no_totals Hok) in Hrun.
  change (subtotal no_totals) with Double.zero in Hrun.
  unfold cart_total, cart_shipping, cart_subtotal, total_weight.
  unfold getBalance in Hrun at 1.
  destruct (Double.ltb _ _); [done|].
  destruct (match shippables _ with [] => _ | _ => _ end); [|done].
  cbn [mbind option_bind] in Hrun.
  destruct (receipt_lines _ _); [|done]. cbn [mbind option_bind] in Hrun.
  destruct (reduce_stock _ _); done.
Qed.

(** X2. What decides the end of a checkout. It fails with [EmptyCart]
    exactly when the cart is empty; with [InsufficientBalance] exactly when
    the cart is not empty, every entry passes the expiry and stock tests
    and the balance is below the total; and it completes exactly when the
    cart is not empty, every entry passes and the balance is not below the
    total. *)
Theorem checkout_outcomes now w :
  (checkout now w = Some (Failed EmptyCart, w) <-> cart w = [])
  /\ (checkout now w = Some (Failed InsufficientBalance, w)
      <-> cart w <> [] /\ Forall (entry_ok now (products w)) (cart w)
          /\ Double.ltb (balance (customer w))
               (cart_total (products w) (cart w)) = true)
  /\ ((exists notice receipt w', checkout now w = Some (Completed notice receipt, w'))
      <-> cart w <> [] /\ Forall (entry_ok now (products w)) (cart w)
          /\ Double.ltb (balance (customer w))
               (cart_total (products w) (cart w)) = false).
Proof.
  split; [|split].
  - split.
    + unfold checkout, Cart.getItems. destruct (cart w) as [|e0 rest]; [done|].
      cbn [Cart.isEmpty]. intros Hrun.
      destruct (check_entries now (products w) (e0 :: rest) no_totals)
        as [[e|acc]|] eqn:Hloop; cbn [mbind option_bind] in Hrun; [| |done].
      * apply check_entries_inl in Hloop as [n [-> | ->]]; discriminate.
      * destruct (sum_weights _ _ _); [|done]. cbn [mbind option_bind] in Hrun.
        destruct (Double.ltb _ _); [done|].
        destruct (match shippables _ with [] => _ | _ => _ end); [|done].
        cbn [mbind option_bind] in Hrun.
        destruct (receipt_lines _ _); [|done]. cbn [mbind option_bind] in Hrun.
        destruct (reduce_stock _ _); done.
    + intros Hcart. unfold checkout. by rewrite Hcart.
  - split.
    + apply checkout_InsufficientBalance_inv.
    + intros (Hne & Hok & Hbal). by apply checkout_balance_refused.
  - split.
    + intros (notice & receipt & w' & Hrun).
      exact (checkout_completed_inv now w notice receipt w' Hrun).
    + intros (Hne & Hok & Hbal).
      destruct (checkout_completes now w Hne Hok Hbal) as (cs & products' & _ & Hrun).
      eauto.
Qed.

Lemma checkout_outcomes_witness :
  checkout Demo.today Demo.scenario_C
  = Some (Failed InsufficientBalance, Demo.scenario_C)
  /\ exists notice receipt w',
       checkout Demo.today Demo.scenario_A = Some (Completed notice receipt, w').
Proof.
  split.
  - apply (proj2 (proj1 (proj2 (checkout_outcomes Demo.today Demo.scenario_C)))).
    split; [discriminate|]. split; [all_pass | vm_compute; reflexivity].
  - apply (proj2 (proj2 (proj2 (checkout_outcomes Demo.today Demo.scenario_A)))).
    split; [discriminate|]. split; [all_pass | vm_compute; reflexivity].
Defined.

(** X3. A checkout never goes wrong on a cart whose entries all point to
    products: it returns, with a failure or a receipt, and reads through no
    other pointer; in particular the lookup [nameToCount.at] in [ship]
    never throws. *)
Theorem checkout_safe now w :
  Forall (fun e => is_Some (products w !! e.1)) (cart w) ->
  exists o w', checkout now w = Some (o, w').
Proof.
  intros Hlive.
  destruct (check_entries_live now (products w) (cart w) no_totals Hlive)
    as [[e|acc] Hloop].
  - destruct (cart w) as [|e0 rest] eqn:Hcart.
    + exists (Failed EmptyCart), w. unfold checkout. by rewrite Hcart.
    + exists (Failed e), w. unfold checkout, Cart.getItems.
      rewrite Hcart. cbn [Cart.isEmpty]. by rewrite Hloop.
  - apply check_entries_inr in Hloop as [Hok _].
    destruct (cart w) as [|e0 rest] eqn:Hcart.
    + exists (Failed EmptyCart), w. unfold checkout. by rewrite Hcart.
    + assert (Hne : cart w <> []) by (by rewrite Hcart).
      rewrite <- Hcart in Hok.
      destruct (Double.ltb (balance (customer w))
                  (cart_total (products w) (cart w))) eqn:Hbal.
      * eexists _, _. by apply checkout_balance_refused.
      * destruct (checkout_completes now w Hne Hok Hbal)
          as (cs & products' & _ & Hrun). eauto.
Qed.

Lemma checkout_safe_witness :
  exists o w', checkout Demo.later Demo.first_cart = Some (o, w').
Proof.
  apply (checkout_safe Demo.later Demo.first_cart).
  repeat (first [apply Forall_nil_2 | apply Forall_cons_2; [vm_compute; eauto|]]).
Defined.

Lemma checkout_Completed_world now w notice receipt w' :
  checkout now w = Some (Completed notice receipt, w') ->
  reduce_stock (products w) (cart w) = Some (products w')
  /\ customer w'
     = mkCustomer (customer_name (customer w))
         (Double.sub (balance (customer w)) (cart_total (products w) (cart w)))
  /\ cart w' = [].
Proof.
  intros Hrun.
  destruct (checkout_completed_inv now w _ _ _ Hrun) as (Hne & Hok & Hbal).
  destruct (checkout_completes now w Hne Hok Hbal) as (cs & products' & Hred & Hrun').
  rewrite Hrun in Hrun'. injection Hrun' as _ _ ->. simpl. by rewrite Hred.
Qed.

(** X4. A completed checkout cannot be repeated: it leaves the cart empty,
    so the next checkout of the same cart, at any time, fails with
    [EmptyCart] and charges nothing. *)
Theorem checkout_not_repeatable now w notice receipt w' now' :
  checkout now w = Some (Completed notice receipt, w') ->
  Cart.isEmpty (cart w') = true
  /\ checkout now' w' = Some (Failed EmptyCart, w').
Proof.
  intros Hrun.
  destruct (checkout_Completed_world now w _ _ _ Hrun) as (_ & _ & Hcart).
  unfold checkout. rewrite Hcart. by split.
Qed.

Lemma checkout_not_repeatable_witness :
  exists notice receipt w',
    checkout Demo.today Demo.scenario_A = Some (Completed notice receipt, w')
    /\ checkout Demo.later w' = Some (Failed EmptyCart, w').
Proof.
  destruct (checkout Demo.today Demo.scenario_A) as [[[e|notice receipt] w']|] eqn:Hrun;
    [vm_compute in Hrun; discriminate | | vm_compute in Hrun; discriminate].
  exists notice, receipt, w'. split; [reflexivity|].
  exact (proj2 (checkout_not_repeatable Demo.today Demo.scenario_A
                  notice receipt w' Demo.later Hrun)).
Defined.

(** X5. The balance test [customer.getBalance() < total] is false for a
    NaN: a customer whose balance is NaN is never refused for insufficient
    balance; every cart that passes the entry tests is settled, and the
    balance stays NaN. *)
Theorem nan_balance_never_refused now w :
  balance (customer w) = S754_nan ->
  cart w <> [] ->
  Forall (entry_ok now (products w)) (cart w) ->
  exists notice receipt w',
    checkout now w = Some (Completed notice receipt, w')
    /\ balance (customer w') = S754_nan
    /\ cart w' = [].
Proof.
  intros Hnan Hne Hok.
  assert (Hbal : Double.ltb (balance (customer w))
                   (cart_total (products w) (cart w)) = false)
    by (by rewrite Hnan).
  destruct (checkout_completes now w Hne Hok Hbal) as (cs & products' & _ & Hrun).
  eexists _, _, _. split; [exact Hrun|]. simpl. by rewrite Hnan.
Qed.

Lemma nan_balance_never_refused_witness :
  exists notice receipt w',
    checkout Demo.today
      (mkWorld Demo.catalogue (mkCustomer "Ali" S754_nan) Demo.basket)
    = Some (Completed notice receipt, w')
    /\ balance (customer w') = S754_nan
    /\ cart w' = [].
Proof.
  apply (nan_balance_never_refused Demo.today
           (mkWorld Demo.catalogue (mkCustomer "Ali" S754_nan) Demo.basket));
    [reflexivity | discriminate | all_pass].
Defined.

(** ** What a checkout leaves alone *)

Lemma with_quantity_id p : with_quantity (getQuantity p) p = p.
Proof. by destruct p as [[]|[]|[]|[]]. Qed.

Lemma with_quantity_reduceQuantity q p :
  reduceQuantity q p = with_quantity (Int.sub (getQuantity p) q) p.
Proof. by destruct p. Qed.

Lemma with_quantity_twice q q' p :
  with_quantity q (with_quantity q' p) = with_quantity q p.
Proof. by destruct p. Qed.

Lemma reduce_stock_frame entries : forall h h',
  reduce_stock h entries = Some h' ->
  forall k,
    (k ∉ entries.*1 -> h' !! k = h !! k)
    /\ (h !! k = None -> h' !! k = None)
    /\ (forall p, h !! k = Some p -> exists q, h' !! k = Some (with_quantity q p)).
Proof.
  induction entries as [|[product qty] rest IH]; intros h h' Hrun k.
  - simpl in Hrun. injection Hrun as <-. repeat split; try done.
    intros p Hp. exists (getQuantity p). by rewrite with_quantity_id.
  - simpl in Hrun. destruct (h !! product) as [p0|] eqn:Hp0; [|done].
    simpl in Hrun. destruct (IH _ _ Hrun k) as (Hout & Hnone & Hsome).
    rewrite fmap_cons, not_elem_of_cons. simpl.
    destruct (decide (k = product)) as [->|Hne].
    + rewrite lookup_insert_eq in *. split; [tauto|]. split; [congruence|].
      intros p Hp. assert (p0 = p) as -> by congruence.
      destruct (Hsome _ eq_refl) as [q Hq]. exists q.
      by rewrite Hq, with_quantity_reduceQuantity, with_quantity_twice.
    + rewrite lookup_insert_ne in * by done. split; [tauto | tauto].
Qed.

(** X6. Whatever its outcome, a checkout creates and removes no product,
    changes nothing but the stock of a product (name, price, expiry date,
    weight and class stay), leaves the products that are not in the cart
    untouched, and keeps the customer's name. *)
Theorem checkout_frame now w o w' :
  checkout now w = Some (o, w') ->
  customer_name (customer w') = customer_name (customer w)
  /\ forall k,
       (products w !! k = None -> products w' !! k = None)
       /\ (forall p, products w !! k = Some p ->
             exists q, products w' !! k = Some (with_quantity q p))
       /\ (k ∉ (cart w).*1 -> products w' !! k = products w !! k).
Proof.
  intros Hrun. destruct o as [e|notice receipt].
  - rewrite (checkout_failed_inv now w e w' Hrun). split; [done|].
    intros k. repeat split; try done.
    intros p Hp. exists (getQuantity p). by rewrite with_quantity_id.
  - destruct (checkout_Completed_world now w _ _ _ Hrun) as (Hred & -> & _).
    split; [done|]. intros k.
    destruct (reduce_stock_frame _ _ _ Hred k) as (Hout & Hnone & Hsome).
    by repeat split.
Qed.

Lemma checkout_frame_witness :
  exists o w',
    checkout Demo.today Demo.scenario_A = Some (o, w')
    /\ products w' !! Demo.biscuits_at = Some Demo.biscuits
    /\ exists q, products w' !! Demo.cheese_at = Some (with_quantity q Demo.cheese).
Proof.
  destruct (checkout Demo.today Demo.scenario_A) as [[o w']|] eqn:Hrun;
    [|vm_compute in Hrun; discriminate].
  exists o, w'. split; [reflexivity|].
  destruct (checkout_frame Demo.today Demo.scenario_A o w' Hrun) as [_ Hk].
  split.
  - destruct (Hk Demo.biscuits_at) as (_ & _ & Hout). rewrite Hout; [reflexivity|].
    vm_compute. intros Hin. repeat (apply elem_of_cons in Hin as [Hin|Hin];
      [discriminate|]). by apply elem_of_nil in Hin.
  - destruct (Hk Demo.cheese_at) as (_ & Hsome & _). apply Hsome. reflexivity.
Defined.

(** X7. A checkout keeps the stocks in range: when every stock is a
    non-negative [int] and the cart (one entry per product, as in a
    [std::map]) asks for non-negative quantities, every stock is still a
    non-negative [int] afterwards, whatever the outcome. *)
Theorem checkout_keeps_stocks_in_range now w o w' :
  stocks_in_range (products w) ->
  ascending (cart w) ->
  Forall (fun e => 0 <= e.2) (cart w) ->
  checkout now w = Some (o, w') ->
  stocks_in_range (products w').
Proof.
  intros Hstock Hasc Hpos Hrun. destruct o as [e|notice receipt].
  - by rewrite (checkout_failed_inv now w e w' Hrun).
  - destruct (checkout_completed_inv now w _ _ _ Hrun) as (_ & Hok & _).
    destruct (checkout_Completed_world now w _ _ _ Hrun) as (Hred & _ & _).
    pose proof (reduce_stock_lookup _ _ _ (CartFacts.ascending_NoDup _ Hasc) Hred)
      as Hlook.
    intros k p' Hp'. rewrite Hlook in Hp'.
    destruct (Cart.lookup k (cart w)) as [q|] eqn:Hq; [|by apply (Hstock k)].
    destruct (products w !! k) as [p|] eqn:Hp; [|done].
    simpl in Hp'. injection Hp' as <-.
    apply CartFacts.lookup_Some in Hq.
    rewrite Forall_forall in Hok, Hpos.
    destruct (Hok _ Hq) as (p0 & Hp0 & _ & Hle). specialize (Hpos _ Hq).
    simpl in *. assert (p0 = p) as -> by congruence.
    specialize (Hstock k p Hp).
    rewrite getQuantity_reduceQuantity. unfold Int.sub.
    rewrite IntFacts.wrap_in_range;
      unfold Int.in_range, Int.INT_MIN, Int.INT_MAX in *; lia.
Qed.

Lemma demo_stocks_in_range : stocks_in_range Demo.catalogue.
Proof.
  intros k p Hp. unfold Demo.catalogue in Hp.
  repeat (apply lookup_insert_Some in Hp as [[_ <-]|[_ Hp]];
          [vm_compute; split; discriminate|]).
  by rewrite lookup_empty in Hp.
Qed.

Lemma checkout_keeps_stocks_in_range_witness :
  exists o w',
    checkout Demo.today Demo.scenario_A = Some (o, w')
    /\ stocks_in_range (products w').
Proof.
  destruct (checkout Demo.today Demo.scenario_A) as [[o w']|] eqn:Hrun;
    [|vm_compute in Hrun; discriminate].
  exists o, w'. split; [reflexivity|].
  apply (checkout_keeps_stocks_in_range Demo.today Demo.scenario_A o w');
    [exact demo_stocks_in_range
    | unfold ascending; vm_compute; repeat constructor
    | repeat constructor; vm_compute; discriminate
    | exact Hrun].
Defined.

(** ** Series of [add] calls *)

Section AddSeries.
Variable now : time_t.
Variable h : Heap.

Lemma add_accepted product quantity items r items' :
  Cart.add now h product quantity items = Some (r, items') ->
  (accepted now h (product, quantity) = true /\ r = Cart.Added
   /\ items' = Cart.update (fun v => Int.add v quantity) product items)
  \/ (accepted now h (product, quantity) = false
      /\ (exists e, r = Cart.Thrown e) /\ items' = items).
Proof.
  unfold Cart.add, accepted. simpl.
  destruct (Z.leb_spec quantity 0) as [Hq|Hq].
  { intros Hadd. simplify_eq. right. split; [|eauto].
    destruct (h !! product); [|done].
    destruct (Z.ltb_spec 0 quantity); [lia | done]. }
  destruct (h !! product) as [p|]; [|done]. simpl.
  destruct (Z.ltb_spec 0 quantity); [|lia]. simpl.
  destruct (isExpired now p); simpl; [intros; simplify_eq; right; eauto|].
  destruct (Z.ltb_spec (getQuantity p) quantity), (Z.leb_spec quantity (getQuantity p));
    try lia; intros; simplify_eq; [right | left]; eauto.
Qed.

Lemma add_is_Some product quantity items :
  is_Some (Cart.add now h product quantity items)
  <-> quantity <= 0 \/ is_Some (h !! product).
Proof.
  unfold Cart.add. destruct (Z.leb_spec quantity 0) as [Hq|Hq].
  - split; [auto | by eexists].
  - destruct (h !! product) as [p|]; simpl.
    + split; [eauto|]. intros _.
      destruct (isExpired now p); [by eexists|].
      destruct (getQuantity p <? quantity); by eexists.
    + split; [by intros [? ?] | intros [?|[? ?]]; [lia | done]].
Qed.

Lemma add_all_is_Some calls : forall items,
  is_Some (Cart.add_all now h calls items)
  <-> Forall (fun c => c.2 <= 0 \/ is_Some (h !! c.1)) calls.
Proof.
  induction calls as [|[product quantity] rest IH]; intros items.
  - split; [constructor | by eexists].
  - simpl. rewrite Forall_cons. simpl.
    rewrite <- (add_is_Some product quantity items).
    destruct (Cart.add now h product quantity items) as [[r items1]|]; simpl.
    + rewrite <- (IH items1).
      destruct (Cart.add_all now h rest items1) as [[rs items2]|]; simpl.
      * split; [by split; eexists | by eexists].
      * split; [by intros [? ?] | by intros [_ [? ?]]].
    + split; [by intros [? ?] | by intros [[? ?] _]].
Qed.

(** The cart after a series: per product, what it held plus the accepted
    quantities. *)
Lemma add_all_lookup calls : forall items rs items',
  ascending items ->
  Cart.add_all now h calls items = Some (rs, items') ->
  Forall2 (fun call r => r = Cart.Added <-> accepted now h call = true) calls rs
  /\ forall k,
       Cart.lookup k items'
       = match accepted_quantities now h k calls with
         | [] => Cart.lookup k items
         | qs => Some (Int.wrap (default 0 (Cart.lookup k items) + sum qs))
         end.
Proof.
  induction calls as [|[product quantity] rest IH]; intros items rs items' Hasc Hall.
  - simpl in Hall. simplify_eq. split; [constructor | done].
  - simpl in Hall.
    destruct (Cart.add now h product quantity items) as [[r items1]|] eqn:Hadd;
      [|done]. simpl in Hall.
    destruct (Cart.add_all now h rest items1) as [[rs' items2]|] eqn:Hrest;
      [|done]. simpl in Hall. simplify_eq.
    pose proof (CartFacts.add_ascending _ _ _ _ _ _ _ Hadd Hasc) as Hasc1.
    destruct (IH _ _ _ Hasc1 Hrest) as [Hrs Hlook].
    destruct (add_accepted _ _ _ _ _ Hadd) as [(Hacc & -> & ->)|(Hacc & [e ->] & ->)].
    + split; [constructor; [done | exact Hrs]|].
      intros k. rewrite Hlook. simpl. destruct (decide (product = k)) as [->|Hne].
      * rewrite Hacc, (CartFacts.lookup_update_eq _ _ _ Hasc). simpl.
        destruct (accepted_quantities now h k rest) as [|q qs].
        -- unfold Int.add, sum. simpl. do 2 f_equal. lia.
        -- unfold Int.add. rewrite wrap_add_idemp. do 2 f_equal.
           unfold sum. simpl. lia.
      * by rewrite (CartFacts.lookup_update_ne _ _ _ _ (not_eq_sym Hne)).
    + split; [constructor; [|exact Hrs]|].
      { rewrite Hacc. split; discriminate. }
      intros k. rewrite Hlook. simpl.
      destruct (decide (product = k)); [by rewrite Hacc | done].
Qed.

Lemma accepted_quantities_elem k q calls :
  q ∈ accepted_quantities now h k calls ->
  (k, q) ∈ calls /\ accepted now h (k, q) = true.
Proof.
  induction calls as [|[product quantity] rest IH]; simpl; [by intros ?%elem_of_nil|].
  destruct (decide (product = k)) as [->|Hne].
  - destruct (accepted now h (k, quantity)) eqn:Hacc.
    + intros [->|Hin]%elem_of_cons; [split; [left | done]|].
      destruct (IH Hin). split; [by right | done].
    + intros Hin. destruct (IH Hin). split; [by right | done].
  - intros Hin. destruct (IH Hin). split; [by right | done].
Qed.

Lemma accepted_quantities_fresh k calls :
  k ∉ calls.*1 -> accepted_quantities now h k calls = [].
Proof.
  induction calls as [|[product quantity] rest IH]; [done|].
  rewrite fmap_cons, not_elem_of_cons. simpl. intros [Hne Hk].
  destruct (decide (product = k)); [congruence | auto].
Qed.

Lemma accepted_quantities_NoDup k calls :
  NoDup calls.*1 -> (length (accepted_quantities now h k calls) <= 1)%nat.
Proof.
  induction calls as [|[product quantity] rest IH]; [simpl; lia|].
  rewrite fmap_cons, NoDup_cons. simpl. intros [Hfresh Hnd].
  destruct (decide (product = k)) as [->|Hne]; [|auto].
  rewrite (accepted_quantities_fresh _ _ Hfresh).
  destruct (accepted now h (k, quantity)); simpl; lia.
Qed.

Lemma accepted_quantities_perm k calls calls' :
  calls ≡ₚ calls' ->
  accepted_quantities now h k calls ≡ₚ accepted_quantities now h k calls'.
Proof.
  induction 1 as [|c l l' _ IH|c1 c2 l|l1 l2 l3 _ IH1 _ IH2]; simpl.
  - done.
  - destruct (decide (c.1 = k)); [destruct (accepted now h c)|]; by rewrite IH.
  - destruct (decide (c1.1 = k)), (decide (c2.1 = k));
      destruct (accepted now h c1), (accepted now h c2); try done.
    apply Permutation_swap.
  - by etrans.
Qed.

Lemma sum_perm qs qs' : qs ≡ₚ qs' -> sum qs = sum qs'.
Proof.
  unfold sum. induction 1 as [|q l l' _ IH|q1 q2 l|l1 l2 l3 _ IH1 _ IH2];
    simpl; lia.
Qed.
End AddSeries.

(** Two ascending carts with the same entry for every product are equal. *)
Lemma ascending_ext (l1 : Cart.t) : forall l2 : Cart.t,
  ascending l1 -> ascending l2 ->
  (forall k, Cart.lookup k l1 = Cart.lookup k l2) -> l1 = l2.
Proof.
  induction l1 as [|[k1 v1] l1 IH]; intros [|[k2 v2] l2] H1 H2 Hext.
  - done.
  - specialize (Hext k2). simpl in Hext. by rewrite N.eqb_refl in Hext.
  - specialize (Hext k1). simpl in Hext. by rewrite N.eqb_refl in Hext.
  - apply CartFacts.ascending_cons in H1 as [Hall1 H1].
    apply CartFacts.ascending_cons in H2 as [Hall2 H2].
    assert (Hnone : forall k (l : Cart.t) k0 v0,
               Forall (fun e => (k0 < e.1)%N) l -> (k <= k0)%N ->
               Cart.lookup k ((k0, v0) :: l) = if (k =? k0)%N then Some v0 else None).
    { intros k l k0 v0 Hall Hle. simpl. destruct (N.eqb_spec k k0); [done|].
      apply CartFacts.lookup_None. intros Hin.
      apply list_elem_of_fmap in Hin as ([k' v'] & -> & Hin).
      rewrite Forall_forall in Hall. specialize (Hall _ Hin). simpl in *. lia. }
    assert (k1 = k2) as ->.
    { destruct (N.lt_trichotomy k1 k2) as [Hlt|[Heq|Hgt]]; [|done|].
      - pose proof (eq_trans (Hext k1) (Hnone k1 l2 k2 v2 Hall2 ltac:(lia))) as He.
        simpl in He. rewrite N.eqb_refl in He.
        destruct (N.eqb_spec k1 k2); [lia | done].
      - pose proof (eq_trans (eq_sym (Hext k2)) (Hnone k2 l1 k1 v1 Hall1 ltac:(lia)))
          as He.
        simpl in He. rewrite N.eqb_refl in He.
        destruct (N.eqb_spec k2 k1); [lia | done]. }
    pose proof (Hext k2) as He. simpl in He. rewrite N.eqb_refl in He.
    injection He as ->. f_equal. apply IH; [done | done|].
    intros k. specialize (Hext k). simpl in Hext.
    destruct (N.eqb_spec k k2) as [Heq|Hne]; [|done]. subst k.
    rewrite !CartFacts.lookup_None; [done| |].
    + intros Hin. apply list_elem_of_fmap in Hin as ([k' v'] & -> & Hin).
      rewrite Forall_forall in Hall2. specialize (Hall2 _ Hin). simpl in *. lia.
    + intros Hin. apply list_elem_of_fmap in Hin as ([k' v'] & -> & Hin).
      rewrite Forall_forall in Hall1. specialize (Hall1 _ Hin). simpl in *. lia.
Qed.

Lemma lookup_elem k v (items : Cart.t) :
  ascending items -> (k, v) ∈ items -> Cart.lookup k items = Some v.
Proof.
  induction items as [|[k' v'] rest IH]; intros Hasc Hin.
  - by apply elem_of_nil in Hin.
  - apply CartFacts.ascending_cons in Hasc as [Hall Hasc].
    apply elem_of_cons in Hin as [Heq|Hin].
    + injection Heq as -> ->. simpl. by rewrite N.eqb_refl.
    + rewrite Forall_forall in Hall. pose proof (Hall _ Hin) as Hlt.
      simpl in *. destruct (N.eqb_spec k k'); [lia | auto].
Qed.

Lemma ascending_empty : ascending Cart.empty.
Proof. constructor. Qed.

Lemma sum_accepted_nonneg now h k calls :
  0 <= sum (accepted_quantities now h k calls).
Proof.
  assert (H : forall qs, Forall (fun q => 0 < q) qs -> 0 <= sum qs).
  { induction 1; unfold sum in *; simpl; lia. }
  apply H. apply Forall_forall. intros q Hq.
  apply accepted_quantities_elem in Hq as [_ Hacc].
  unfold accepted in Hacc. simpl in Hacc. destruct (h !! k); [|done].
  apply andb_prop in Hacc as [Hacc _]. apply andb_prop in Hacc as [Hacc _].
  by apply Z.ltb_lt.
Qed.

(** X8. After any series of [add] calls on a new cart, the cart holds for
    each product the sum of the quantities of the calls made for it that
    passed the tests (reduced to an [int]; the sum itself when it fits),
    and no entry for a product without such a call. A call succeeds exactly
    when it passes the tests, whatever the cart already holds. *)
Theorem add_all_contents now h calls rs items :
  Cart.add_all now h calls Cart.empty = Some (rs, items) ->
  Forall2 (fun call r => r = Cart.Added <-> accepted now h call = true) calls rs
  /\ (forall k,
        Cart.lookup k items
        = match accepted_quantities now h k calls with
          | [] => None
          | qs => Some (Int.wrap (sum qs))
          end)
  /\ (forall k,
        accepted_quantities now h k calls <> [] ->
        sum (accepted_quantities now h k calls) <= Int.INT_MAX ->
        Cart.lookup k items = Some (sum (accepted_quantities now h k calls))).
Proof.
  intros Hall.
  destruct (add_all_lookup now h calls _ _ _ ascending_empty Hall) as [Hrs Hlook].
  split; [exact Hrs|]. split.
  - intros k. rewrite Hlook. simpl. by destruct (accepted_quantities now h k calls).
  - intros k Hne Hmax. rewrite Hlook. simpl.
    pose proof (sum_accepted_nonneg now h k calls) as Hpos.
    destruct (accepted_quantities now h k calls) as [|q qs]; [done|].
    change (sum (q :: qs)) with (q + sum qs) in *.
    rewrite IntFacts.wrap_in_range; [done|].
    unfold Int.in_range, Int.INT_MIN in *. lia.
Qed.

Lemma add_all_contents_witness :
  exists rs items,
    Cart.add_all Demo.today Demo.catalogue
      [(Demo.cheese_at, 2); (Demo.biscuits_at, 5); (Demo.cheese_at, 1)] Cart.empty
    = Some (rs, items)
    /\ Cart.lookup Demo.cheese_at items = Some 3
    /\ Cart.lookup Demo.biscuits_at items = None.
Proof.
  destruct (Cart.add_all Demo.today Demo.catalogue
              [(Demo.cheese_at, 2); (Demo.biscuits_at, 5); (Demo.cheese_at, 1)]
              Cart.empty) as [[rs items]|] eqn:Hall;
    [|vm_compute in Hall; discriminate].
  exists rs, items. split; [reflexivity|].
  destruct (add_all_contents _ _ _ _ _ Hall) as (_ & Hlook & _).
  rewrite !Hlook. split; vm_compute; reflexivity.
Defined.

(** X9. The order of the [add] calls does not matter: two series made of
    the same calls in different orders, on a new cart, at the same time and
    against the same stock, leave the same cart. *)
Theorem add_all_order_irrelevant now h calls calls' rs items :
  calls ≡ₚ calls' ->
  Cart.add_all now h calls Cart.empty = Some (rs, items) ->
  exists rs', Cart.add_all now h calls' Cart.empty = Some (rs', items).
Proof.
  intros Hperm Hall.
  assert (Hsome : is_Some (Cart.add_all now h calls' Cart.empty)).
  { apply add_all_is_Some. rewrite <- Hperm.
    apply (add_all_is_Some now h calls Cart.empty). by eexists. }
  destruct Hsome as [[rs' items'] Hall']. exists rs'. rewrite Hall'. do 2 f_equal.
  destruct (add_all_lookup now h calls _ _ _ ascending_empty Hall) as [_ Hlook].
  destruct (add_all_lookup now h calls' _ _ _ ascending_empty Hall') as [_ Hlook'].
  apply ascending_ext.
  - eapply CartFacts.add_all_ascending; [exact Hall' | constructor].
  - eapply CartFacts.add_all_ascending; [exact Hall | constructor].
  - intros k. rewrite Hlook, Hlook'.
    pose proof (accepted_quantities_perm now h k _ _ Hperm) as Hqs.
    pose proof (sum_perm _ _ Hqs) as Hsum.
    destruct (accepted_quantities now h k calls) as [|q qs],
             (accepted_quantities now h k calls') as [|q' qs'].
    + done.
    + by apply Permutation_nil_cons in Hqs.
    + symmetry in Hqs. by apply Permutation_nil_cons in Hqs.
    + by rewrite Hsum.
Qed.

Lemma add_all_order_irrelevant_witness :
  exists rs rs' items,
    Cart.add_all Demo.today Demo.catalogue
      [(Demo.biscuits_at, 1); (Demo.cheese_at, 2)] Cart.empty = Some (rs, items)
    /\ Cart.add_all Demo.today Demo.catalogue
         [(Demo.cheese_at, 2); (Demo.biscuits_at, 1)] Cart.empty = Some (rs', items).
Proof.
  destruct (Cart.add_all Demo.today Demo.catalogue
              [(Demo.biscuits_at, 1); (Demo.cheese_at, 2)] Cart.empty)
    as [[rs items]|] eqn:Hall; [|vm_compute in Hall; discriminate].
  destruct (add_all_order_irrelevant Demo.today Demo.catalogue
              [(Demo.biscuits_at, 1); (Demo.cheese_at, 2)]
              [(Demo.cheese_at, 2); (Demo.biscuits_at, 1)] rs items) as [rs' Hall'];
    [apply Permutation_swap | exact Hall|].
  exists rs, rs', items. split; [reflexivity | exact Hall'].
Defined.

(** X10. A cart filled by successful [add] calls, one call per product,
    passes the entry tests of a checkout made at the same time against the
    same stock: that checkout cannot fail with [EmptyCart],
    [ExpiredProduct] or [InsufficientStock]; it completes or fails with
    [InsufficientBalance]. *)
Theorem added_once_passes_checkout now h calls rs items c :
  calls <> [] ->
  NoDup calls.*1 ->
  Forall (fun call => Int.in_range call.2) calls ->
  Cart.add_all now h calls Cart.empty = Some (rs, items) ->
  Forall (fun r => r = Cart.Added) rs ->
  items <> []
  /\ Forall (entry_ok now h) items
  /\ (checkout now (mkWorld h c items)
      = Some (Failed InsufficientBalance, mkWorld h c items)
      \/ exists notice receipt w',
           checkout now (mkWorld h c items) = Some (Completed notice receipt, w')).
Proof.
  intros Hne Hnd Hrange Hall Hadded.
  destruct (add_all_lookup now h calls _ _ _ ascending_empty Hall) as [Hrs Hlook].
  assert (Hasc : ascending items)
    by (eapply CartFacts.add_all_ascending; [exact Hall | constructor]).
  assert (Hok : Forall (entry_ok now h) items).
  { apply Forall_forall. intros [k v] Hin.
    pose proof (lookup_elem _ _ _ Hasc Hin) as Hkv.
    rewrite Hlook in Hkv. simpl in Hkv.
    pose proof (accepted_quantities_NoDup now h k calls Hnd) as Hlen.
    destruct (accepted_quantities now h k calls) as [|q [|q' qs]] eqn:Hqs;
      [done| |simpl in Hlen; lia].
    assert (Hq : q ∈ accepted_quantities now h k calls) by (rewrite Hqs; left).
    apply accepted_quantities_elem in Hq as [Hcall Hacc].
    rewrite Forall_forall in Hrange. specialize (Hrange _ Hcall). simpl in Hrange.
    injection Hkv as <-. unfold sum. simpl. rewrite Z.add_0_r.
    rewrite IntFacts.wrap_in_range by done.
    unfold accepted in Hacc. simpl in Hacc.
    destruct (h !! k) as [p|] eqn:Hp; [|done].
    apply andb_prop in Hacc as [Hacc Hle]. apply andb_prop in Hacc as [_ Hexp].
    exists p. split; [done|]. split; [by destruct (isExpired now p)|].
    simpl. by apply Z.leb_le. }
  assert (Hitems : items <> []).
  { destruct calls as [|[k q] rest]; [done|].
    inversion Hrs as [|? r ? rs' Hr Hrs']; subst.
    apply Forall_cons in Hadded as [-> _].
    specialize (Hlook k). simpl in Hlook.
    destruct (decide (k = k)); [|done]. rewrite (proj1 Hr eq_refl) in Hlook.
    intros ->. done. }
  split; [exact Hitems|]. split; [exact Hok|].
  destruct (Double.ltb (balance c) (cart_total h items)) eqn:Hbal.
  - left. by apply (checkout_balance_refused now (mkWorld h c items)).
  - right.
    destruct (checkout_completes now (mkWorld h c items) Hitems Hok Hbal)
      as (cs & products' & _ & Hrun). eauto.
Qed.

Lemma added_once_passes_checkout_witness :
  exists rs items,
    Cart.add_all Demo.today Demo.catalogue Demo.biscuits_then_cheese Cart.empty
    = Some (rs, items)
    /\ Forall (entry_ok Demo.today Demo.catalogue) items.
Proof.
  destruct (Cart.add_all Demo.today Demo.catalogue Demo.biscuits_then_cheese
              Cart.empty) as [[rs items]|] eqn:Hall;
    [|vm_compute in Hall; discriminate].
  exists rs, items. split; [reflexivity|].
  apply (added_once_passes_checkout Demo.today Demo.catalogue
           Demo.biscuits_then_cheese rs items Demo.ali).
  - discriminate.
  - vm_compute. repeat constructor; intros Hin;
      repeat (apply elem_of_cons in Hin as [Hin|Hin]; [discriminate|]);
      by apply elem_of_nil in Hin.
  - repeat constructor; vm_compute; discriminate.
  - exact Hall.
  - revert Hall. vm_compute. intros Hall. injection Hall as <- _.
    repeat constructor.
Defined.

(** ** The shipment notice *)

Section Notice.
Variable h : Heap.
Variable counts_of : gmap string Z.

Lemma count_lines_names items : forall printed cs,
  ShippingService.count_lines h items counts_of printed = Some cs ->
  NoDup cs.*2
  /\ (forall n, (n ∈ cs.*2) <->
        ((n ∉ printed)
         /\ exists item p, item ∈ items /\ h !! item = Some p /\ getName p = n))
  /\ Forall (fun l => counts_of !! l.2 = Some l.1) cs.
Proof.
  induction items as [|item rest IH]; intros printed cs Hrun.
  - simpl in Hrun. injection Hrun as <-. split; [constructor|]. split; [|constructor].
    intros n. split; [by intros ?%elem_of_nil|].
    intros (_ & item & p & Hin & _). by apply elem_of_nil in Hin.
  - simpl in Hrun. destruct (h !! item) as [p|] eqn:Hp; [|done]. simpl in Hrun.
    destruct (decide (getName p ∈ printed)) as [Hprinted|Hnew].
    + destruct (IH _ _ Hrun) as (Hnd & Hnames & Hcounts).
      split; [exact Hnd|]. split; [|exact Hcounts].
      intros n. rewrite Hnames. split.
      * intros (Hn & item' & p' & Hin & Hp' & Hname).
        split; [done|]. exists item', p'. split; [by right | done].
      * intros (Hn & item' & p' & Hin & Hp' & Hname). split; [done|].
        apply elem_of_cons in Hin as [->|Hin]; [|by exists item', p'].
        assert (p' = p) as -> by congruence. congruence.
    + destruct (counts_of !! getName p) as [count|] eqn:Hcount; [|done].
      simpl in Hrun.
      destruct (ShippingService.count_lines h rest counts_of ({[getName p]} ∪ printed))
        as [ls|] eqn:Hrest; [|done]. simpl in Hrun. injection Hrun as <-.
      destruct (IH _ _ Hrest) as (Hnd & Hnames & Hcounts).
      split; [|split].
      * rewrite fmap_cons. constructor; [|exact Hnd]. simpl.
        intros Hin. apply Hnames in Hin as [Hin _].
        apply Hin, elem_of_union_l, elem_of_singleton. reflexivity.
      * intros n. rewrite fmap_cons, elem_of_cons, Hnames. simpl. split.
        -- intros [->|(Hn & item' & p' & Hin & Hp' & Hname)].
           ++ split; [done|]. exists item, p. split; [left | done].
           ++ split; [intros ?; apply Hn; by apply elem_of_union_r|].
              exists item', p'. split; [by right | done].
        -- intros (Hn & item' & p' & Hin & Hp' & Hname).
           destruct (decide (n = getName p)) as [->|Hne]; [by left|]. right.
           split.
           ++ intros [Hs|Hpr]%elem_of_union; [|done].
              by apply elem_of_singleton in Hs.
           ++ apply elem_of_cons in Hin as [->|Hin]; [|by exists item', p'].
              assert (p' = p) as -> by congruence. congruence.
      * constructor; [exact Hcount | exact Hcounts].
Qed.

Lemma count_lines_is_Some items : forall printed,
  Forall (fun item => is_Some (h !! item)) items ->
  is_Some (ShippingService.count_lines h items counts_of printed)
  <-> (forall item p, item ∈ items -> h !! item = Some p ->
         getName p ∈ printed \/ is_Some (counts_of !! getName p)).
Proof.
  induction items as [|item rest IH]; intros printed Hlive.
  - split; [|by eexists]. intros _ item p Hin. by apply elem_of_nil in Hin.
  - apply Forall_cons in Hlive as [[p Hp] Hlive]. simpl. rewrite Hp. simpl.
    destruct (decide (getName p ∈ printed)) as [Hprinted|Hnew].
    + rewrite (IH printed Hlive). split.
      * intros Hall item' p' [->|Hin]%elem_of_cons Hp'; [|eauto].
        assert (p' = p) as -> by congruence. by left.
      * intros Hall item' p' Hin. apply Hall. by right.
    + destruct (counts_of !! getName p) as [count|] eqn:Hcount; simpl.
      * split.
        -- intros Hsome item' p' [->|Hin]%elem_of_cons Hp'.
           { assert (p' = p) as -> by congruence. right. by eexists. }
           destruct (ShippingService.count_lines h rest counts_of
                       ({[getName p]} ∪ printed)) as [ls|] eqn:Hrest;
             [|by destruct Hsome].
           assert (Hs : is_Some (ShippingService.count_lines h rest counts_of
                                   ({[getName p]} ∪ printed)))
             by (by eexists).
           pose proof (proj1 (IH _ Hlive) Hs) as Hs'.
           destruct (Hs' item' p' Hin Hp') as [[Hsing|Hpr]%elem_of_union|Hc];
             [|by left | by right].
           apply elem_of_singleton in Hsing. rewrite Hsing. right. by eexists.
        -- intros Hall.
           assert (Hs : is_Some (ShippingService.count_lines h rest counts_of
                                   ({[getName p]} ∪ printed))).
           { apply (IH _ Hlive). intros item' p' Hin Hp'.
             destruct (Hall item' p' (list_elem_of_further _ _ _ Hin) Hp') as [Hpr|Hc];
               [left; by apply elem_of_union_r | by right]. }
           destruct Hs as [ls ->]. by eexists.
      * split; [by intros [? ?]|]. intros Hall.
        destruct (Hall item p (list_elem_of_here _ _) Hp) as [Hpr|[c Hc]];
          [done | congruence].
Qed.

Lemma weight_lines_length items : forall tw ws total,
  ShippingService.weight_lines h items tw = Some (ws, total) ->
  length ws = length items.
Proof.
  intros tw ws total. rewrite weight_lines_unit_weights.
  destruct (unit_weights h items) as [us|] eqn:Hus; [|done]. simpl.
  intros Hrun. injection Hrun as <- _. rewrite length_map.
  clear tw total. revert us Hus.
  induction items as [|item rest IH]; intros us Hus.
  - simpl in Hus. by injection Hus as <-.
  - simpl in Hus. destruct (h !! item) as [p|]; [|done]. simpl in Hus.
    destruct (getWeight p); [|done]. simpl in Hus.
    destruct (unit_weights h rest) as [us'|]; [|done]. simpl in Hus.
    injection Hus as <-. simpl. f_equal. by apply IH.
Qed.

Lemma unit_weights_is_Some items :
  Forall (fun item => exists p w, h !! item = Some p /\ getWeight p = Some w) items ->
  is_Some (unit_weights h items).
Proof.
  induction 1 as [|item rest (p & w & Hp & Hw) _ [ws IH]]; [by eexists|].
  simpl. rewrite Hp. simpl. rewrite Hw. simpl. rewrite IH. by eexists.
Qed.
End Notice.

(** X11. The notice of [ship] has one count line per distinct product name
    among the units, whatever the number of units carrying it, each with
    the count recorded for the name, and one weight line per unit; with no
    unit, [ship] writes nothing. *)
Theorem ship_summary h items nameToCount :
  Forall (unit_ok h nameToCount) items ->
  (items = [] -> ShippingService.ship h items nameToCount = Some None)
  /\ (items <> [] ->
      exists s,
        ShippingService.ship h items nameToCount = Some (Some s)
        /\ NoDup (counts s).*2
        /\ (forall n, (n ∈ (counts s).*2) <->
              exists item p, item ∈ items /\ h !! item = Some p /\ getName p = n)
        /\ Forall (fun l => nameToCount !! l.2 = Some l.1) (counts s)
        /\ length (unit_grams s) = length items).
Proof.
  intros Hok. split; [by intros ->|]. intros Hne.
  destruct (count_lines_total h items nameToCount ∅ Hok) as [cs Hcs].
  unfold ShippingService.ship. destruct items as [|item rest]; [done|].
  rewrite Hcs. cbn [mbind option_bind].
  destruct (ShippingService.weight_lines h (item :: rest) Double.zero)
    as [[ws total]|] eqn:Hws.
  - cbn [mbind option_bind]. eexists. split; [reflexivity|]. simpl.
    destruct (count_lines_names h nameToCount _ _ _ Hcs) as (Hnd & Hnames & Hcounts).
    split; [exact Hnd|]. split; [|split; [exact Hcounts|]].
    + intros n. rewrite Hnames. split; [by intros [_ ?]|]. intros Hex.
      split; [apply not_elem_of_empty | exact Hex].
    + exact (weight_lines_length h _ _ _ _ Hws).
  - exfalso. rewrite weight_lines_unit_weights in Hws.
    destruct (unit_weights_is_Some h (item :: rest)) as [us Hus].
    { eapply Forall_impl; [exact Hok|]. intros i (p & w & Hp & Hw & _). eauto. }
    by rewrite Hus in Hws.
Qed.

Lemma ship_summary_witness :
  exists s,
    ShippingService.ship Demo.catalogue
      [Demo.cheese_at; Demo.cheese_at; Demo.biscuits_at]
      {["Cheese" := 2; "Biscuits" := 1]} = Some (Some s)
    /\ NoDup (counts s).*2
    /\ length (unit_grams s) = 3%nat.
Proof.
  destruct (ship_summary Demo.catalogue
              [Demo.cheese_at; Demo.cheese_at; Demo.biscuits_at]
              {["Cheese" := 2; "Biscuits" := 1]}) as [_ Hship].
  { repeat constructor; eexists _, _;
      (split; [vm_compute; reflexivity|]); (split; [reflexivity|]);
      vm_compute; eauto. }
  destruct Hship as (s & Hs & Hnd & _ & _ & Hlen); [discriminate|].
  exists s. split; [exact Hs|]. split; [exact Hnd | exact Hlen].
Defined.

(** X12. When every unit points to a shippable product, [ship] returns
    normally exactly when each unit's name has an entry in [nameToCount];
    a name without entry makes [nameToCount.at] throw. *)
Theorem ship_throws_on_missing_count h items nameToCount :
  Forall (fun item => exists p w, h !! item = Some p /\ getWeight p = Some w) items ->
  is_Some (ShippingService.ship h items nameToCount)
  <-> (forall item p, item ∈ items -> h !! item = Some p ->
         is_Some (nameToCount !! getName p)).
Proof.
  intros Hlive.
  assert (Hl : Forall (fun item => is_Some (h !! item)) items).
  { eapply Forall_impl; [exact Hlive|]. intros i (p & w & Hp & _). eauto. }
  pose proof (count_lines_is_Some h nameToCount items ∅ Hl) as Hcount.
  destruct (unit_weights_is_Some h items Hlive) as [us Hus].
  unfold ShippingService.ship. destruct items as [|item rest].
  - split; [|by eexists]. intros _ item p Hin. by apply elem_of_nil in Hin.
  - rewrite weight_lines_unit_weights, Hus. split.
    + intros Hsome item' p' Hin Hp'.
      destruct (ShippingService.count_lines h (item :: rest) nameToCount ∅)
        as [cs|] eqn:Hcs; [|by destruct Hsome].
      destruct (proj1 Hcount ltac:(by eexists) item' p' Hin Hp') as [Hpr|Hc];
        [by apply not_elem_of_empty in Hpr | done].
    + intros Hall.
      destruct (proj2 Hcount) as [cs ->]; [|by eexists].
      intros item' p' Hin Hp'. right. eauto.
Qed.

Lemma ship_throws_on_missing_count_witness :
  ShippingService.ship Demo.catalogue [Demo.cheese_at; Demo.biscuits_at]
    {["Cheese" := 1]} = None
  /\ is_Some (ShippingService.ship Demo.catalogue [Demo.cheese_at; Demo.biscuits_at]
                {["Cheese" := 1; "Biscuits" := 1]}).
Proof.
  split; [vm_compute; reflexivity|].
  apply (ship_throws_on_missing_count Demo.catalogue
           [Demo.cheese_at; Demo.biscuits_at] {["Cheese" := 1; "Biscuits" := 1]}).
  - repeat constructor; eexists _, _; split; vm_compute; reflexivity.
  - intros item p Hin Hp.
    apply elem_of_cons in Hin as [->|Hin];
      [|apply elem_of_cons in Hin as [->|Hin]; [|by apply elem_of_nil in Hin]];
      vm_compute in Hp; injection Hp as <-; vm_compute; eauto.
Defined.

(** ** The count lines of a checkout *)

Section Counts.
Variable h : Heap.

Lemma count_lines_skip n item p tail counts_of printed :
  h !! item = Some p -> getName p ∈ printed ->
  ShippingService.count_lines h (replicate n item ++ tail) counts_of printed
  = ShippingService.count_lines h tail counts_of printed.
Proof.
  intros Hp Hin. induction n as [|n IH]; [done|].
  simpl. rewrite Hp. simpl. by destruct (decide (getName p ∈ printed)).
Qed.

Lemma shippable_lines_elem entries q n :
  (q, n) ∈ shippable_lines h entries ->
  exists product p, (product, q) ∈ entries /\ h !! product = Some p
                    /\ isShippable p = true /\ getName p = n.
Proof.
  induction entries as [|[product qty] rest IH]; simpl; [by intros ?%elem_of_nil|].
  destruct (h !! product) as [p|] eqn:Hp.
  - destruct (isShippable p) eqn:Hs.
    + intros [Heq|Hin]%elem_of_cons.
      * injection Heq as -> ->. exists product, p. split; [left | done].
      * destruct (IH Hin) as (pr & p' & Hin' & H'). exists pr, p'.
        split; [by right | done].
    + intros Hin. destruct (IH Hin) as (pr & p' & Hin' & H'). exists pr, p'.
      split; [by right | done].
  - intros Hin. destruct (IH Hin) as (pr & p' & Hin' & H'). exists pr, p'.
    split; [by right | done].
Qed.

(** With distinct names and positive quantities the first loop of [ship]
    writes the shippable lines of the cart, in the order of the cart. *)
Lemma count_lines_shippable_lines counts_of entries : forall printed,
  Forall (fun e => 0 < e.2) entries ->
  NoDup (shippable_lines h entries).*2 ->
  Forall (fun l => counts_of !! l.2 = Some l.1) (shippable_lines h entries) ->
  Forall (fun l => l.2 ∉ printed) (shippable_lines h entries) ->
  ShippingService.count_lines h (concat (map (line_pointers h) entries))
    counts_of printed
  = Some (shippable_lines h entries).
Proof.
  induction entries as [|[product qty] rest IH]; intros printed Hpos Hnd Hcounts Hnew.
  - reflexivity.
  - apply Forall_cons in Hpos as [Hq Hpos]. simpl in *.
    unfold line_pointers at 1. simpl.
    destruct (h !! product) as [p|] eqn:Hp; [|by apply IH].
    destruct (isShippable p) eqn:Hs; [|by apply IH].
    rewrite fmap_cons in Hnd. apply NoDup_cons in Hnd as [Hfresh Hnd].
    apply Forall_cons in Hcounts as [Hc Hcounts].
    apply Forall_cons in Hnew as [Hn Hnew]. simpl in *.
    destruct (Z.to_nat qty) as [|n] eqn:Hqty; [lia|].
    simpl. rewrite Hp. simpl.
    destruct (decide (getName p ∈ printed)); [done|].
    rewrite Hc. simpl.
    rewrite (count_lines_skip n product p) by
      (done || apply elem_of_union_l, elem_of_singleton; reflexivity).
    rewrite (IH ({[getName p]} ∪ printed)); [done | done | done | done|].
    apply Forall_forall. intros [q' n'] Hin. simpl.
    intros [Hsing|Hpr]%elem_of_union.
    + apply elem_of_singleton in Hsing. subst n'. apply Hfresh.
      apply list_elem_of_fmap. by exists (q', getName p).
    + rewrite Forall_forall in Hnew. by apply (Hnew _ Hin).
Qed.

Lemma nameToCount_fresh entries : forall acc n,
  n ∉ (shippable_lines h entries).*2 ->
  nameToCount (account_all h entries acc) !! n = nameToCount acc !! n.
Proof.
  induction entries as [|[product qty] rest IH]; intros acc n Hn; [done|].
  unfold account_all in *. simpl in *.
  destruct (h !! product) as [p|] eqn:Hp; [|by apply IH].
  unfold account at 2. destruct (isShippable p) eqn:Hs.
  - rewrite fmap_cons, not_elem_of_cons in Hn. destruct Hn as [Hne Hn].
    rewrite (IH _ _ Hn). simpl. by rewrite lookup_insert_ne.
  - by rewrite (IH _ _ Hn).
Qed.

Lemma account_all_cons product qty rest acc p :
  h !! product = Some p ->
  account_all h ((product, qty) :: rest) acc
  = account_all h rest (account product p qty acc).
Proof. intros Hp. unfold account_all. simpl. by rewrite Hp. Qed.

Lemma nameToCount_shippable_lines entries : forall acc,
  NoDup (shippable_lines h entries).*2 ->
  Forall (fun l => nameToCount (account_all h entries acc) !! l.2 = Some l.1)
         (shippable_lines h entries).
Proof.
  induction entries as [|[product qty] rest IH]; intros acc Hnd; [constructor|].
  destruct (h !! product) as [p|] eqn:Hp.
  - rewrite (account_all_cons _ _ _ _ _ Hp).
    cbn [shippable_lines fst snd] in *. rewrite Hp in *.
    destruct (isShippable p) eqn:Hs; [|by apply IH].
    rewrite fmap_cons in Hnd. apply NoDup_cons in Hnd as [Hfresh Hnd].
    constructor; [|by apply IH]. cbn [fst snd].
    rewrite (nameToCount_fresh rest _ _ Hfresh). unfold account. rewrite Hs.
    cbn [nameToCount]. by rewrite lookup_insert_eq.
  - assert (account_all h ((product, qty) :: rest) acc = account_all h rest acc) as ->
      by (unfold account_all; simpl; by rewrite Hp).
    cbn [shippable_lines fst snd] in *. rewrite Hp in *. by apply IH.
Qed.
End Counts.

(** The whole result of a completed checkout, count lines included. *)
Lemma checkout_completes_counts now w :
  cart w <> [] ->
  Forall (entry_ok now (products w)) (cart w) ->
  Forall (fun e => 0 < e.2) (cart w) ->
  NoDup (shippable_lines (products w) (cart w)).*2 ->
  Double.ltb (balance (customer w)) (cart_total (products w) (cart w)) = false ->
  exists products',
    reduce_stock (products w) (cart w) = Some products' /\
    checkout now w
    = Some (Completed
              (notice_for (shipment_units (products w) (cart w))
                          (shippable_lines (products w) (cart w)))
              (mkReceipt (map (receipt_line (products w)) (cart w))
                 (Double.to_int (cart_subtotal (products w) (cart w)))
                 (Double.to_int (cart_shipping (products w) (cart w)))
                 (Double.to_int (cart_total (products w) (cart w)))
                 (Double.to_int
                    (Double.sub (balance (customer w))
                       (cart_total (products w) (cart w))))),
            mkWorld products'
              (mkCustomer (customer_name (customer w))
                 (Double.sub (balance (customer w))
                    (cart_total (products w) (cart w))))
              []).
Proof.
  intros Hne Hok Hpos Hnd Hbal.
  assert (Hlive : Forall (fun e => is_Some (products w !! e.1)) (cart w)).
  { eapply Forall_impl; [exact Hok|]. intros e. apply entry_ok_live. }
  destruct (reduce_stock_total (cart w) (products w) Hlive) as [products' Hred].
  pose proof (account_all_units w) as Hws.
  pose proof (units_nil_shippables w) as Hnil.
  pose proof (subtotal_account_all now _ _ no_totals Hok) as Hsub.
  assert (Hcs : ShippingService.count_lines (products w)
                  (shippables (account_all (products w) (cart w) no_totals))
                  (nameToCount (account_all (products w) (cart w) no_totals)) ∅
                = Some (shippable_lines (products w) (cart w))).
  { rewrite shippables_account_all. simpl.
    apply count_lines_shippable_lines; [done | done | |].
    - by apply nameToCount_shippable_lines.
    - apply Forall_forall. intros l _. apply not_elem_of_empty. }
  assert (Hship :
    match shippables (account_all (products w) (cart w) no_totals) with
    | [] => Some None
    | _ :: _ => ShippingService.ship (products w)
                  (shippables (account_all (products w) (cart w) no_totals))
                  (nameToCount (account_all (products w) (cart w) no_totals))
    end = Some (notice_for (shipment_units (products w) (cart w))
                           (shippable_lines (products w) (cart w)))).
  { unfold notice_for.
    destruct (shippables (account_all (products w) (cart w) no_totals))
      as [|item rest] eqn:Hsh.
    - by rewrite (proj2 Hnil eq_refl).
    - unfold ShippingService.ship.
      rewrite Hcs, weight_lines_unit_weights, Hws. simpl.
      destruct (shipment_units (products w) (cart w)) as [|u us]; [|done].
      discriminate (proj1 Hnil eq_refl). }
  exists products'. split; [exact Hred|]. unfold checkout, Cart.getItems.
  assert (Cart.isEmpty (cart w) = false) as -> by (by destruct (cart w)).
  rewrite (check_entries_pass now _ _ _ Hok). cbn [mbind option_bind].
  rewrite sum_weights_unit_weights, Hws. cbn [mbind option_bind].
  rewrite Hsub. change (subtotal no_totals) with Double.zero.
  unfold cart_total, cart_shipping, cart_subtotal, total_weight in *.
  unfold getBalance at 1. rewrite Hbal, Hship. cbn [mbind option_bind].
  rewrite (receipt_lines_map _ _ Hlive). cbn [mbind option_bind].
  rewrite Hred. reflexivity.
Qed.

(** X13. When the shippable products of the cart have distinct names and
    every quantity is positive, the notice of a completed checkout lists,
    in the order of the cart, one line [quantity "x" name] per shippable
    entry, followed by one weight line per unit and the total weight. *)
Theorem checkout_notice_counts now w :
  cart w <> [] ->
  Forall (entry_ok now (products w)) (cart w) ->
  Forall (fun e => 0 < e.2) (cart w) ->
  NoDup (shippable_lines (products w) (cart w)).*2 ->
  Double.ltb (balance (customer w)) (cart_total (products w) (cart w)) = false ->
  exists receipt w',
    checkout now w
    = Some (Completed
              (notice_for (shipment_units (products w) (cart w))
                          (shippable_lines (products w) (cart w)))
              receipt, w').
Proof.
  intros Hne Hok Hpos Hnd Hbal.
  destruct (checkout_completes_counts now w Hne Hok Hpos Hnd Hbal)
    as (products' & _ & Hrun).
  eauto.
Qed.

Lemma checkout_notice_counts_witness :
  exists receipt w',
    checkout Demo.today Demo.first_cart
    = Some (Completed
              (Some (mkShipment [(2, "Cheese"); (1, "Biscuits")]
                       [grams (Double.lit 4 1); grams (Double.lit 4 1);
                        grams (Double.lit 7 1)]
                       (Double.fixed 1 (Double.lit 15 1))))
              receipt, w').
Proof.
  destruct (checkout_notice_counts Demo.today Demo.first_cart)
    as (receipt & w' & Hrun).
  - discriminate.
  - all_pass.
  - repeat constructor.
  - vm_compute. repeat constructor; intros Hin;
      repeat (apply elem_of_cons in Hin as [Hin|Hin]; [discriminate|]);
      by apply elem_of_nil in Hin.
  - vm_compute. reflexivity.
  - exists receipt, w'. rewrite Hrun. vm_compute. reflexivity.
Defined.

(** ** The balance after a checkout *)

Section Subtraction.
Import Double.

Lemma binary_round_aux_not_negative m e l :
  ltb (binary_round_aux prec emax false m e l) zero = false.
Proof.
  unfold binary_round_aux.
  destruct (shr_fexp prec emax m e l) as [mrs' e'].
  destruct (shr_fexp prec emax _ e' loc_Exact) as [mrs'' e''].
  destruct (shr_m mrs''); [reflexivity| |reflexivity].
  destruct (e'' <=? emax - prec); reflexivity.
Qed.

Lemma binary_normalize_not_negative z e :
  0 <= z -> ltb (binary_normalize prec emax z e false) zero = false.
Proof.
  intros Hz. destruct z as [|p|p]; [reflexivity| |lia].
  unfold binary_normalize, binary_round.
  destruct (shl_align _ _ _). apply binary_round_aux_not_negative.
Qed.

Lemma shl_align_value m e e' :
  e' <= e -> Z.pos (fst (shl_align m e e')) = Z.pos m * 2 ^ (e - e').
Proof.
  intros He. unfold shl_align.
  destruct (e' - e) as [|d|d] eqn:Hd; simpl; try lia.
  - replace (e - e') with 0 by lia. lia.
  - rewrite DoubleFacts.iter_xO_value. f_equal. f_equal. lia.
Qed.

Lemma canonical_lt m1 e1 m2 e2 :
  canonical_mantissa prec emax m1 e1 = true ->
  canonical_mantissa prec emax m2 e2 = true ->
  e2 < e1 ->
  Z.pos m2 < Z.pos m1 * 2 ^ (e1 - e2).
Proof.
  unfold canonical_mantissa, fexp, emin, prec, emax.
  intros H1 H2 He. apply Z.eqb_eq in H1, H2.
  pose proof (DoubleFacts.digits2_pos_bound m1) as [Hlo1 _].
  pose proof (DoubleFacts.digits2_pos_bound m2) as [_ Hhi2].
  assert (Hd1 : Z.pos (digits2_pos m1) = 53) by lia.
  assert (Hd2 : Z.pos (digits2_pos m2) <= 53) by lia.
  rewrite Hd1 in Hlo1.
  assert (2 ^ Z.pos (digits2_pos m2) <= 2 ^ 53) by (apply Z.pow_le_mono_r; lia).
  assert (2 ^ 1 <= 2 ^ (e1 - e2)) by (apply Z.pow_le_mono_r; lia).
  change (2 ^ (53 - 1)) with 4503599627370496 in Hlo1.
  change (2 ^ 53) with 9007199254740992 in *. change (2 ^ 1) with 2 in *.
  nia.
Qed.

(** For binary64 data [x] and [y] with [x < y] false, [x - y] is not below
    zero. *)
Lemma sub_not_negative x y :
  valid x = true -> valid y = true ->
  is_finite x = true -> is_finite y = true ->
  ltb x y = false -> ltb (sub x y) zero = false.
Proof.
  destruct x as [sx|sx| |sx mx ex], y as [sy|sy| |sy my ey]; try discriminate;
    intros Hvx Hvy _ _ Hlt.
  - by destruct sx, sy.
  - destruct sy; [reflexivity | discriminate].
  - by destruct sx.
  - unfold valid, valid_binary, bounded in Hvx, Hvy.
    apply andb_prop in Hvx as [Hcx _]. apply andb_prop in Hvy as [Hcy _].
    unfold sub, SFsub. apply binary_normalize_not_negative.
    rewrite !shl_align_value by lia.
    unfold ltb, SFltb, SFcompare in Hlt.
    destruct sx, sy; cbn [cond_Zopp]; try discriminate.
    + destruct (Z.compare_spec ex ey) as [->|He|He]; try discriminate.
      * rewrite Z.min_id, Z.sub_diag, !Z.mul_1_r.
        change (Pos.compare_cont Eq mx my) with (Pos.compare mx my) in Hlt.
        destruct (Pos.compare_spec mx my); simpl in Hlt; try discriminate; lia.
      * rewrite Z.min_l, Z.sub_diag, Z.mul_1_r by lia.
        pose proof (canonical_lt my ey mx ex Hcy Hcx He). lia.
    + assert (0 < 2 ^ (ex - Z.min ex ey)) by (apply Z.pow_pos_nonneg; lia).
      assert (0 < 2 ^ (ey - Z.min ex ey)) by (apply Z.pow_pos_nonneg; lia).
      nia.
    + destruct (Z.compare_spec ex ey) as [->|He|He]; try discriminate.
      * rewrite Z.min_id, Z.sub_diag, !Z.mul_1_r.
        change (Pos.compare_cont Eq mx my) with (Pos.compare mx my) in Hlt.
        destruct (Pos.compare_spec mx my); simpl in Hlt; try discriminate; lia.
      * rewrite Z.min_r, Z.sub_diag, Z.mul_1_r by lia.
        pose proof (canonical_lt mx ex my ey Hcx Hcy He). lia.
Qed.
End Subtraction.

(** X14. A completed checkout never leaves the balance below zero: for a
    balance and a total that are finite binary64 data, the balance kept
    after the checkout is not less than 0. *)
Theorem checkout_balance_not_negative now w notice receipt w' :
  Double.valid (balance (customer w)) = true ->
  Double.is_finite (balance (customer w)) = true ->
  Double.valid (cart_total (products w) (cart w)) = true ->
  Double.is_finite (cart_total (products w) (cart w)) = true ->
  checkout now w = Some (Completed notice receipt, w') ->
  Double.ltb (balance (customer w')) Double.zero = false.
Proof.
  intros Hvb Hfb Hvt Hft Hrun.
  destruct (checkout_completed_inv now w _ _ _ Hrun) as (_ & _ & Hbal).
  destruct (checkout_Completed_world now w _ _ _ Hrun) as (_ & -> & _).
  simpl. by apply sub_not_negative.
Qed.

Lemma checkout_balance_not_negative_witness :
  exists notice receipt w',
    checkout Demo.today Demo.scenario_A = Some (Completed notice receipt, w')
    /\ Double.ltb (balance (customer w')) Double.zero = false.
Proof.
  destruct (checkout Demo.today Demo.scenario_A) as [[[e|notice receipt] w']|] eqn:Hrun;
    [vm_compute in Hrun; discriminate | | vm_compute in Hrun; discriminate].
  exists notice, receipt, w'. split; [reflexivity|].
  apply (checkout_balance_not_negative Demo.today Demo.scenario_A notice receipt w');
    [vm_compute; reflexivity .. | exact Hrun].
Defined.

(** ** The run of [main] *)

Lemma add_Added now h product p quantity items :
  h !! product = Some p -> 0 < quantity -> isExpired now p = false ->
  quantity <= getQuantity p ->
  Cart.add now h product quantity items
  = Some (Cart.Added, Cart.update (fun v => Int.add v quantity) product items).
Proof.
  intros Hp Hq Hexp Hle. unfold Cart.add. rewrite Hp. simpl. rewrite Hexp.
  destruct (Z.leb_spec quantity 0); [lia|].
  by destruct (Z.ltb_spec (getQuantity p) quantity); [lia|].
Qed.

Lemma add_expired now h product p quantity items :
  h !! product = Some p -> 0 < quantity -> isExpired now p = true ->
  Cart.add now h product quantity items
  = Some (Cart.Thrown (Cart.ExpiredProduct (getName p)), items).
Proof.
  intros Hp Hq Hexp. unfold Cart.add. rewrite Hp. simpl. rewrite Hexp.
  by destruct (Z.leb_spec quantity 0); [lia|].
Qed.

Lemma add_beyond_stock now h product p quantity items :
  h !! product = Some p -> 0 < quantity -> isExpired now p = false ->
  getQuantity p < quantity ->
  Cart.add now h product quantity items
  = Some (Cart.Thrown (Cart.InsufficientStock (getName p)), items).
Proof.
  intros Hp Hq Hexp Hlt. unfold Cart.add. rewrite Hp. simpl. rewrite Hexp.
  destruct (Z.leb_spec quantity 0); [lia|].
  by destruct (Z.ltb_spec (getQuantity p) quantity); [|lia].
Qed.

Lemma checkout_empty now h c :
  checkout now (mkWorld h c Cart.empty)
  = Some (Failed EmptyCart, mkWorld h c Cart.empty).
Proof. reflexivity. Qed.

Section Catalogue.
Variable expiry : time_t.
Variables at_cheese at_biscuits at_tv at_mobile at_scratchCard : ptr.
Hypothesis distinct :
  NoDup [at_cheese; at_biscuits; at_tv; at_mobile; at_scratchCard].

Lemma distinct_cheese_biscuits : at_cheese <> at_biscuits.
Proof.
  intros Heq. apply NoDup_cons in distinct as [Hc _]. apply Hc.
  rewrite Heq. left.
Qed.

Lemma catalogue_cheese :
  Main.catalogue expiry at_cheese at_biscuits at_tv at_mobile at_scratchCard
    !! at_cheese = Some (Main.cheese expiry).
Proof.
  pose proof distinct as Hd. apply NoDup_cons in Hd as [Hc Hd].
  rewrite !not_elem_of_cons in Hc. destruct Hc as (? & ? & ? & ? & _).
  unfold Main.catalogue.
  rewrite !lookup_insert_ne by done. apply lookup_insert_eq.
Qed.

Lemma catalogue_biscuits :
  Main.catalogue expiry at_cheese at_biscuits at_tv at_mobile at_scratchCard
    !! at_biscuits = Some (Main.biscuits expiry).
Proof.
  pose proof distinct as Hd.
  apply NoDup_cons in Hd as [_ Hd]. apply NoDup_cons in Hd as [Hb Hd].
  rewrite !not_elem_of_cons in Hb. destruct Hb as (? & ? & ? & _).
  unfold Main.catalogue.
  rewrite !lookup_insert_ne by done. apply lookup_insert_eq.
Qed.
End Catalogue.

Section MainRun.
Variables now expiry : time_t.
Variables at_cheese at_biscuits : ptr.
Hypothesis distinct : at_cheese <> at_biscuits.
Hypothesis in_date : now <= expiry.
Variable h : Heap.
Hypothesis cheese_here : h !! at_cheese = Some (Main.cheese expiry).
Hypothesis biscuits_here : h !! at_biscuits = Some (Main.biscuits expiry).

Lemma first_try at_tv at_scratchCard :
  Main.try_adds now h
    [(at_cheese, 2); (at_biscuits, 1); (at_tv, 0); (at_scratchCard, 1)] Cart.empty
  = Some (["Quantity must be positive"], Main.first_cart at_cheese at_biscuits).
Proof.
  assert (Hexp : (expiry <? now) = false) by (apply Z.ltb_ge; lia).
  unfold Main.try_adds.
  rewrite (add_Added now h at_cheese _ 2 _ cheese_here) by (done || (simpl; lia)).
  cbn [mbind option_bind].
  rewrite (add_Added now h at_biscuits _ 1 _ biscuits_here) by (done || (simpl; lia)).
  cbn [mbind option_bind].
  unfold Cart.add. simpl "<=?". cbn [mbind option_bind].
  unfold Main.first_cart, Cart.empty. simpl.
  destruct (N.ltb_spec at_biscuits at_cheese), (N.ltb_spec at_cheese at_biscuits);
    try lia; try done.
  destruct (N.eqb_spec at_biscuits at_cheese); [congruence | done].
Qed.

Lemma first_checkout :
  exists o h1,
    checkout now
      (mkWorld h (mkCustomer "Ali" (Double.of_Z 1000))
               (Main.first_cart at_cheese at_biscuits))
    = Some (o, mkWorld h1 (mkCustomer "Ali" (Double.of_Z 605)) [])
    /\ Print.outcome o = Some (Main.first_output (at_cheese <? at_biscuits)%N)
    /\ h1 !! at_cheese = Some (reduceQuantity 2 (Main.cheese expiry))
    /\ h1 !! at_biscuits = Some (reduceQuantity 1 (Main.biscuits expiry))
    /\ (forall k, k <> at_cheese -> k <> at_biscuits -> h1 !! k = h !! k).
Proof.
  assert (Hexp : (expiry <? now) = false) by (apply Z.ltb_ge; lia).
  set (ali := mkCustomer "Ali" (Double.of_Z 1000)).
  assert (Hok : Forall (entry_ok now h) (Main.first_cart at_cheese at_biscuits)).
  { unfold Main.first_cart. destruct (at_cheese <? at_biscuits)%N;
      repeat constructor; eexists; (split; [eassumption|]); simpl; split;
      (done || lia). }
  assert (Hasc : ascending (Main.first_cart at_cheese at_biscuits)).
  { unfold Main.first_cart, ascending.
    destruct (N.ltb_spec at_cheese at_biscuits); simpl; repeat constructor; lia. }
  destruct (checkout_completes_counts now
              (mkWorld h ali (Main.first_cart at_cheese at_biscuits)))
    as (h1 & Hred & Hrun).
  - unfold Main.first_cart. simpl. by destruct (at_cheese <? at_biscuits)%N.
  - exact Hok.
  - unfold Main.first_cart. simpl.
    destruct (at_cheese <? at_biscuits)%N; repeat constructor.
  - unfold Main.first_cart. simpl. destruct (at_cheese <? at_biscuits)%N; simpl;
      rewrite cheese_here, biscuits_here; simpl;
      repeat constructor; intros Hin;
      repeat (apply elem_of_cons in Hin as [Hin|Hin]; [discriminate|]);
      by apply elem_of_nil in Hin.
  - unfold Main.first_cart. simpl.
    unfold cart_total, cart_subtotal, cart_shipping, shipment_units, line_units,
      line_amount.
    destruct (at_cheese <? at_biscuits)%N; simpl;
      rewrite cheese_here, biscuits_here; vm_compute; reflexivity.
  - cbn [products cart customer] in Hrun, Hred.
    assert (Hvals :
      cart_subtotal h (Main.first_cart at_cheese at_biscuits) = Double.of_Z 350
      /\ cart_shipping h (Main.first_cart at_cheese at_biscuits) = Double.of_Z 45
      /\ cart_total h (Main.first_cart at_cheese at_biscuits) = Double.of_Z 395
      /\ shipment_units h (Main.first_cart at_cheese at_biscuits)
         = (if (at_cheese <? at_biscuits)%N
            then [Double.lit 4 1; Double.lit 4 1; Double.lit 7 1]
            else [Double.lit 7 1; Double.lit 4 1; Double.lit 4 1])
      /\ shippable_lines h (Main.first_cart at_cheese at_biscuits)
         = (if (at_cheese <? at_biscuits)%N
            then [(2, "Cheese"); (1, "Biscuits")]
            else [(1, "Biscuits"); (2, "Cheese")])
      /\ map (receipt_line h) (Main.first_cart at_cheese at_biscuits)
         = (if (at_cheese <? at_biscuits)%N
            then [(2, "Cheese", Some 200); (1, "Biscuits", Some 150)]
            else [(1, "Biscuits", Some 150); (2, "Cheese", Some 200)])).
    { unfold cart_total, cart_subtotal, cart_shipping, shipment_units, line_units,
        receipt_line, line_amount, Main.first_cart.
      destruct (at_cheese <? at_biscuits)%N; simpl;
        rewrite cheese_here, biscuits_here; vm_compute; repeat split. }
    destruct Hvals as (Hsub & Hship & Htotal & Hunits & Hlines & Hreceipt).
    rewrite Hsub, Hship, Htotal, Hunits, Hlines, Hreceipt in Hrun.
    eexists _, h1. split; [exact Hrun|]. split.
    { destruct (at_cheese <? at_biscuits)%N; vm_compute; reflexivity. }
    pose proof (reduce_stock_lookup _ _ _ (CartFacts.ascending_NoDup _ Hasc) Hred)
      as Hlook.
    split; [|split].
    + rewrite Hlook. unfold Main.first_cart.
      destruct (N.ltb_spec at_cheese at_biscuits); simpl;
        rewrite ?N.eqb_refl;
        destruct (N.eqb_spec at_cheese at_biscuits);
        try congruence; by rewrite cheese_here.
    + rewrite Hlook. unfold Main.first_cart.
      destruct (N.ltb_spec at_cheese at_biscuits); simpl;
        rewrite ?N.eqb_refl;
        destruct (N.eqb_spec at_biscuits at_cheese);
        try congruence; by rewrite biscuits_here.
    + intros k Hkc Hkb. rewrite Hlook. unfold Main.first_cart.
      destruct (N.ltb_spec at_cheese at_biscuits); simpl;
        destruct (N.eqb_spec k at_cheese), (N.eqb_spec k at_biscuits);
        congruence.
Qed.

Lemma second_cart h1 customer1 :
  h1 !! at_cheese = Some (reduceQuantity 2 (Main.cheese expiry)) ->
  Main.try_adds now h1 [(at_cheese, 10)] Cart.empty
  = Some (["Not enough stock for Cheese"], Cart.empty)
  /\ Cart.add now h1 at_cheese 1 Cart.empty = Some (Cart.Added, [(at_cheese, 1)])
  /\ checkout now
       (mkWorld
          (<[at_cheese := reduceQuantity 5 (reduceQuantity 2 (Main.cheese expiry))]> h1)
          customer1 [(at_cheese, 1)])
     = Some (Failed (InsufficientStock "Cheese"),
             mkWorld
               (<[at_cheese := reduceQuantity 5 (reduceQuantity 2 (Main.cheese expiry))]> h1)
               customer1 [(at_cheese, 1)]).
Proof.
  intros Hc.
  assert (Hexp : (expiry <? now) = false) by (apply Z.ltb_ge; lia).
  split; [|split].
  - unfold Main.try_adds.
    rewrite (add_beyond_stock now h1 at_cheese _ 10 _ Hc)
      by first [done | vm_compute; reflexivity].
    reflexivity.
  - rewrite (add_Added now h1 at_cheese _ 1 _ Hc)
      by first [done | vm_compute; discriminate].
    reflexivity.
  - set (w := mkWorld _ _ _).
    apply (proj2 (checkout_stops_at now w [] at_cheese 1 []
                    (reduceQuantity 5 (reduceQuantity 2 (Main.cheese expiry)))
                    eq_refl (Forall_nil_2 _) (lookup_insert_eq _ _ _)));
      [exact Hexp | vm_compute; reflexivity].
Qed.
End MainRun.

(** X15. A run of [main] before the expiry date, wherever the five
    products are allocated. The call [add(tv, 0)] throws, so ScratchCard is
    never added; the first checkout settles Cheese x2 and Biscuits x1 for
    395 and lists them in the order of their addresses; the second cart is
    refused twice for lack of stock; the third is empty. The run ends with
    a balance of 605 and a Cheese stock of -2, every other product but
    Biscuits as it was created. *)
Theorem main_in_date now expiry at_cheese at_biscuits at_tv at_mobile at_scratchCard :
  NoDup [at_cheese; at_biscuits; at_tv; at_mobile; at_scratchCard] ->
  now <= expiry ->
  exists h,
    Main.main now expiry at_cheese at_biscuits at_tv at_mobile at_scratchCard
    = Some (Main.output_in_date (at_cheese <? at_biscuits)%N, h,
            mkCustomer "Ali" (Double.of_Z 605))
    /\ getQuantity <$> h !! at_cheese = Some (-2)
    /\ getQuantity <$> h !! at_biscuits = Some 1
    /\ (forall k, k <> at_cheese -> k <> at_biscuits ->
          h !! k
          = Main.catalogue expiry at_cheese at_biscuits at_tv at_mobile
              at_scratchCard !! k).
Proof.
  intros Hd Hdate.
  pose proof (distinct_cheese_biscuits _ _ _ _ _ Hd) as Hne.
  pose proof (catalogue_cheese expiry _ _ _ _ _ Hd) as Hc.
  pose proof (catalogue_biscuits expiry _ _ _ _ _ Hd) as Hb.
  unfold Main.main.
  rewrite (first_try now expiry at_cheese at_biscuits Hne Hdate _ Hc Hb
             at_tv at_scratchCard).
  cbn [mbind option_bind].
  destruct (first_checkout now expiry at_cheese at_biscuits Hne Hdate _ Hc Hb)
    as (o & h1 & Hrun & Hprint & Hc1 & Hb1 & Hframe).
  rewrite Hrun. cbn [mbind option_bind]. rewrite Hprint.
  cbn [mbind option_bind products customer].
  destruct (second_cart now expiry at_cheese at_biscuits Hne Hdate h1
              (mkCustomer "Ali" (Double.of_Z 605)) Hc1) as (H3 & H4 & H5).
  rewrite H3. cbn [mbind option_bind]. rewrite H4. cbn [mbind option_bind].
  rewrite Hc1. cbn [mbind option_bind]. rewrite H5.
  cbn [mbind option_bind Print.outcome products customer].
  rewrite checkout_empty.
  cbn [mbind option_bind Print.outcome products customer].
  eexists. split; [reflexivity|].
  rewrite lookup_insert_eq. split; [vm_compute; reflexivity|].
  rewrite lookup_insert_ne by done. rewrite Hb1.
  split; [vm_compute; reflexivity|].
  intros k Hkc Hkb. rewrite lookup_insert_ne by done. by apply Hframe.
Qed.

Lemma main_in_date_witness :
  exists h,
    Main.main Demo.today Demo.expiry 32%N 16%N 48%N 64%N 80%N
    = Some (Main.output_in_date false, h, mkCustomer "Ali" (Double.of_Z 605))
    /\ getQuantity <$> h !! 32%N = Some (-2).
Proof.
  destruct (main_in_date Demo.today Demo.expiry 32%N 16%N 48%N 64%N 80%N)
    as (h & Hrun & Hc & _).
  - repeat constructor; intros Hin;
      repeat (apply elem_of_cons in Hin as [Hin|Hin]; [discriminate|]);
      by apply elem_of_nil in Hin.
  - vm_compute. discriminate.
  - exists h. split; [exact Hrun | exact Hc].
Defined.

(** X16. A run of [main] after the expiry date: every call of [add] for
    Cheese throws "Cheese is expired", which ends both [try] blocks at once
    (Biscuits is never added and [reduceQuantity] never called), the two
    checkouts find an empty cart, and no product and no balance has
    changed when [main] returns. *)
Theorem main_expired now expiry at_cheese at_biscuits at_tv at_mobile at_scratchCard :
  NoDup [at_cheese; at_biscuits; at_tv; at_mobile; at_scratchCard] ->
  expiry < now ->
  Main.main now expiry at_cheese at_biscuits at_tv at_mobile at_scratchCard
  = Some (Main.output_expired,
          Main.catalogue expiry at_cheese at_biscuits at_tv at_mobile at_scratchCard,
          mkCustomer "Ali" (Double.of_Z 1000)).
Proof.
  intros Hd Hdate.
  pose proof (catalogue_cheese expiry _ _ _ _ _ Hd) as Hc.
  assert (Hexp : isExpired now (Main.cheese expiry) = true)
    by (simpl; apply Z.ltb_lt; lia).
  unfold Main.main, Main.try_adds.
  rewrite (add_expired now _ at_cheese _ 2 _ Hc) by (done || lia).
  cbn [mbind option_bind]. rewrite checkout_empty.
  cbn [mbind option_bind Print.outcome products customer].
  rewrite (add_expired now _ at_cheese _ 10 _ Hc) by (done || lia).
  cbn [mbind option_bind].
  rewrite (add_expired now _ at_cheese _ 1 _ Hc) by (done || lia).
  cbn [mbind option_bind]. rewrite checkout_empty.
  reflexivity.
Qed.

Lemma main_expired_witness :
  Main.main Demo.later Demo.expiry 16%N 32%N 48%N 64%N 80%N
  = Some (Main.output_expired,
          Main.catalogue Demo.expiry 16%N 32%N 48%N 64%N 80%N,
          mkCustomer "Ali" (Double.of_Z 1000)).
Proof.
  apply (main_expired Demo.later Demo.expiry 16%N 32%N 48%N 64%N 80%N).
  - repeat constructor; intros Hin;
      repeat (apply elem_of_cons in Hin as [Hin|Hin]; [discriminate|]);
      by apply elem_of_nil in Hin.
  - reflexivity.
Defined.
